(** * pdf_to_audio.py: the conversion pipeline and its command line driver

    A shallow embedding of [src/pdf_to_audio.py].  Python text is modelled
    as [string], read as a sequence of code points below 256; the helper
    functions of the Python library the program calls ([str.strip],
    [str.lower], [str.endswith], [os.path.join], [os.path.basename],
    [os.path.splitext]) are written out after their POSIX definitions.
    Stateful code runs in a small state-and-exception monad over a [world]
    made of a file store and the log. *)

From Stdlib Require Import ZArith List Permutation Ascii String.
From stdpp Require Import base tactics option list strings pretty gmap sorting.

Local Open Scope string_scope.
Local Open Scope Z_scope.

(** ** Python strings *)

Module PyStr.

Definition ord (c : ascii) : N := N_of_ascii c.

(** [str.isspace] on one code point of the range U+0000..U+00FF. *)
Definition isspace (c : ascii) : bool :=
  let n := ord c in
  ((9 <=? n) && (n <=? 13) || (28 <=? n) && (n <=? 32)
   || (n =? 133) || (n =? 160))%N.

(** [str.lower] on one code point of the same range: the letters A..Z
    and the upper-case letters U+00C0..U+00DE, the sign U+00D7 apart. *)
Definition lower_char (c : ascii) : ascii :=
  let n := ord c in
  if ((65 <=? n) && (n <=? 90)
      || (192 <=? n) && (n <=? 222) && negb (n =? 215))%N
  then ascii_of_N (n + 32) else c.

Fixpoint lower (s : string) : string :=
  match s with
  | EmptyString => EmptyString
  | String c r => String (lower_char c) (lower r)
  end.

Fixpoint lstrip (s : string) : string :=
  match s with
  | EmptyString => EmptyString
  | String c r => if isspace c then lstrip r else s
  end.

Fixpoint rstrip (s : string) : string :=
  match s with
  | EmptyString => EmptyString
  | String c r =>
      match rstrip r with
      | EmptyString => if isspace c then EmptyString else String c EmptyString
      | r' => String c r'
      end
  end.

Definition strip (s : string) : string := rstrip (lstrip s).

(** Truth value of a string in a condition: non-empty. *)
Definition truthy (s : string) : bool :=
  match s with EmptyString => false | String _ _ => true end.

Definition startswith (s p : string) : bool := String.prefix p s.

Fixpoint endswith (s suf : string) : bool :=
  if String.eqb s suf then true
  else match s with
       | EmptyString => false
       | String _ r => endswith r suf
       end.

(** [s.rfind(c)]: the highest index holding [c], or -1. *)
Fixpoint rfind_from (c : ascii) (s : string) (i acc : Z) : Z :=
  match s with
  | EmptyString => acc
  | String a r => rfind_from c r (i + 1) (if Ascii.eqb a c then i else acc)
  end.

Definition rfind (c : ascii) (s : string) : Z := rfind_from c s 0 (-1).

(** The slices [s[i:]] and [s[:i]] for an index [0 <= i]. *)
Fixpoint drop (n : nat) (s : string) : string :=
  match n, s with
  | O, _ => s
  | S n', String _ r => drop n' r
  | S _, EmptyString => EmptyString
  end.

Fixpoint take (n : nat) (s : string) : string :=
  match n, s with
  | S n', String a r => String a (take n' r)
  | _, _ => EmptyString
  end.

Definition slice_from (i : Z) (s : string) : string := drop (Z.to_nat i) s.
Definition slice_to (i : Z) (s : string) : string := take (Z.to_nat i) s.

(** [s[i:i+1]]: the one-character slice, empty past the end. *)
Definition slice1 (i : Z) (s : string) : string :=
  take 1 (drop (Z.to_nat i) s).

Fixpoint contains (c : ascii) (s : string) : bool :=
  match s with
  | EmptyString => false
  | String a r => Ascii.eqb a c || contains c r
  end.

Fixpoint all_space (s : string) : bool :=
  match s with
  | EmptyString => true
  | String c r => isspace c && all_space r
  end.

(** [s.rstrip(c)] for one character [c] *)
Fixpoint rstrip_char (c : ascii) (s : string) : string :=
  match s with
  | EmptyString => EmptyString
  | String a r =>
      match rstrip_char c r with
      | EmptyString => if Ascii.eqb a c then EmptyString
                       else String a EmptyString
      | r' => String a r'
      end
  end.

(** [s == c * len(s)] *)
Fixpoint all_char (c : ascii) (s : string) : bool :=
  match s with
  | EmptyString => true
  | String a r => Ascii.eqb a c && all_char c r
  end.

End PyStr.

(** ** [posixpath] *)

Module PosixPath.
Import PyStr.

Definition sep : ascii := "/"%char.
Definition extsep : ascii := "."%char.

(** [os.path.join(a, b)] *)
Definition join (a b : string) : string :=
  if startswith b "/" then b
  else if negb (truthy a) || endswith a "/" then a +:+ b
  else a +:+ "/" +:+ b.

(** [os.path.basename(p)]: [i = p.rfind('/') + 1; return p[i:]] *)
Definition basename (p : string) : string :=
  let i := rfind sep p + 1 in
  slice_from i p.

(** The loop of [genericpath._splitext] that skips the leading dots of
    the file name: [n] is the number of indices left before [dotIndex]. *)
Fixpoint splitext_scan (p : string) (dotIndex filenameIndex : Z) (n : nat)
  : option (string * string) :=
  match n with
  | O => None
  | S n' =>
      if negb (String.eqb (slice1 filenameIndex p) ".")
      then Some (slice_to dotIndex p, slice_from dotIndex p)
      else splitext_scan p dotIndex (filenameIndex + 1) n'
  end.

(** [os.path.splitext(p)] *)
Definition splitext (p : string) : string * string :=
  let sepIndex := rfind sep p in
  let dotIndex := rfind extsep p in
  if sepIndex <? dotIndex then
    let filenameIndex := sepIndex + 1 in
    match splitext_scan p dotIndex filenameIndex
            (Z.to_nat (dotIndex - filenameIndex)) with
    | Some r => r
    | None => (p, EmptyString)
    end
  else (p, EmptyString).

(** [os.path.split(p)] *)
Definition split (p : string) : string * string :=
  let i := rfind sep p + 1 in
  let head := slice_to i p in
  let tail := slice_from i p in
  (if truthy head && negb (all_char sep head) then rstrip_char sep head
   else head,
   tail).

End PosixPath.

(** ** The world: file store, temporary directory, log *)

(** What the speech service returns for a text in a language; an
    [AudioSegment] is a sequence of such clips, [+=] appends. *)
Inductive clip : Type := Speech (text lang : string).

Definition audio : Type := list clip.

(** A page of a parsed document: [extract_text] returns its text or
    raises. *)
Inductive page : Type :=
| Page (text : string)
| Damaged (msg : string).

Inductive content : Type :=
| Pdf (pages : list page)
| Mp3 (a : audio)
| Bytes (b : string).

Inductive node : Type :=
| File (c : content)
| Dir.

(** The file store is an association list from paths to nodes; its order
    is the order in which [os.listdir] reports entries.  Paths are taken
    as written: two spellings of one path are two keys. *)
Definition store : Type := list (string * node).

Inductive level : Type := DEBUG | INFO | WARNING | ERROR.

Definition work_item : Type := string * string * string.

Record world : Type := World {
  fs : store;
  (** the files of the current [tempfile.TemporaryDirectory], which the
      operating system creates under a fresh name: no path the caller
      holds lies inside it *)
  tmp : gmap string audio;
  log : list (level * string);
  stdout : list string;
  (** ghost state: the arguments of every call of [pdf_to_audio] *)
  calls : list work_item
}.

Module Store.

Fixpoint lookup (p : string) (s : store) : option node :=
  match s with
  | [] => None
  | (q, n) :: r => if decide (q = p) then Some n else lookup p r
  end.

Definition remove (p : string) (s : store) : store :=
  List.filter (fun e => negb (String.eqb (fst e) p)) s.

(** Writing replaces the node of an existing path in place and puts a
    new path last. *)
Fixpoint write (p : string) (n : node) (s : store) : store :=
  match s with
  | [] => [(p, n)]
  | (q, m) :: r => if decide (q = p) then (p, n) :: r
                   else (q, m) :: write p n r
  end.

Fixpoint strip_prefix (pre s : string) : option string :=
  match pre, s with
  | EmptyString, _ => Some s
  | String a pre', String b s' =>
      if Ascii.eqb a b then strip_prefix pre' s' else None
  | String _ _, EmptyString => None
  end.

(** The name under which path [p] is an entry of directory [d], if it
    is one: [p = os.path.join(d, name)] for a name without separator. *)
Definition child_name (d p : string) : option string :=
  match strip_prefix (PosixPath.join d "") p with
  | Some n =>
      if PyStr.truthy n && negb (PyStr.contains "/" n)
         && negb (String.eqb n ".") && negb (String.eqb n "..")
      then Some n else None
  | None => None
  end.

Definition entries (d : string) (s : store) : list string :=
  omap (fun e => child_name d (fst e)) s.

Definition isfile (p : string) (s : store) : bool :=
  match lookup p s with Some (File _) => true | _ => false end.

Definition isdir (p : string) (s : store) : bool :=
  match lookup p s with Some Dir => true | _ => false end.

End Store.

(** ** Exceptions and the monad of commands *)

(** [Exception msg] stands for an instance of a subclass of Python's
    [Exception] whose [str] is [msg]; [SystemExit] is what [sys.exit]
    raises, and is not an [Exception]. *)
Inductive exn : Type :=
| Exception (msg : string)
| SystemExit (code : Z).

Inductive result (A : Type) : Type :=
| Ok (a : A)
| Raise (e : exn).
Arguments Ok {A} a.
Arguments Raise {A} e.

Definition M (A : Type) : Type := world -> result A * world.

Definition ret {A} (a : A) : M A := fun w => (Ok a, w).

Definition bind {A B} (m : M A) (k : A -> M B) : M B :=
  fun w => match m w with
           | (Ok a, w') => k a w'
           | (Raise e, w') => (Raise e, w')
           end.

Definition raise {A} (e : exn) : M A := fun w => (Raise e, w).

(** [try: body except Exception as e: handler e] *)
Definition try_except {A} (body : M A) (handler : string -> M A) : M A :=
  fun w => match body w with
           | (Raise (Exception msg), w') => handler msg w'
           | r => r
           end.

Definition when (b : bool) (m : M unit) : M unit :=
  if b then m else ret tt.

Declare Scope cmd_scope.
Delimit Scope cmd_scope with cmd.
Notation "x <- m ;; k" := (bind m (fun x => k))
  (at level 100, m at next level, right associativity) : cmd_scope.
Notation "m ;; k" := (bind m (fun _ => k))
  (at level 100, right associativity) : cmd_scope.
Local Open Scope cmd_scope.

Definition sys_exit {A} (code : Z) : M A := raise (SystemExit code).

Definition logger (l : level) (msg : string) : M unit :=
  fun w => (Ok tt, World (fs w) (tmp w) (log w ++ [(l, msg)]) (stdout w) (calls w)).

Definition print (line : string) : M unit :=
  fun w => (Ok tt, World (fs w) (tmp w) (log w) (stdout w ++ [line]) (calls w)).

Definition record_call (it : work_item) : M unit :=
  fun w => (Ok tt, World (fs w) (tmp w) (log w) (stdout w) (calls w ++ [it])).

Definition set_fs (s : store) (w : world) : world :=
  World s (tmp w) (log w) (stdout w) (calls w).

Definition set_tmp (t : gmap string audio) (w : world) : world :=
  World (fs w) t (log w) (stdout w) (calls w).

(** ** The collaborators: operating system, parser, speech service, encoder

    Only their outcomes matter to the program.  Where a call can fail for
    reasons outside the file store (network, permissions, a missing
    encoder), an oracle decides; a failure raises an [Exception]. *)

Inductive outcome (A : Type) : Type :=
| Returns (a : A)
| Fails (msg : string).
Arguments Returns {A} a.
Arguments Fails {A} msg.

(** What [AudioSegment.export] does with its destination: it opens the
    destination for writing, then encodes. *)
Inductive encoding : Type :=
| Encoded
| OpenFails (msg : string)
| EncodeFails (msg : string).

(** The collaborators of one call of [pdf_to_audio]. *)
Record service : Type := Service {
  tempdir : outcome string;
  (** page index, text, language *)
  tts_error : nat -> string -> string -> option string;
  (** path of the temporary file *)
  decode_error : string -> option string;
  (** destination path *)
  export_outcome : string -> encoding
}.

Record env : Type := Env {
  listdir_error : string -> option string;
  unlink_error : string -> option string;
  makedirs_error : string -> option string;
  languages : outcome (list (string * string));
  (** the collaborators of the conversion of work item [k] *)
  svc : nat -> service;
  (** when the worker of work item [k] finishes *)
  finish_time : nat -> nat
}.

Module OS.

Definition isfile (p : string) : M bool :=
  fun w => (Ok (Store.isfile p (fs w)), w).

Definition listdir (E : env) (d : string) : M (list string) :=
  fun w =>
    if negb (PyStr.truthy d) then (Raise (Exception "FileNotFoundError"), w)
    else match Store.lookup d (fs w) with
         | Some Dir =>
             match listdir_error E d with
             | Some msg => (Raise (Exception msg), w)
             | None => (Ok (Store.entries d (fs w)), w)
             end
         | Some (File _) => (Raise (Exception "NotADirectoryError"), w)
         | None => (Raise (Exception "FileNotFoundError"), w)
         end.

Definition unlink (E : env) (p : string) : M unit :=
  fun w =>
    match Store.lookup p (fs w) with
    | Some (File _) =>
        match unlink_error E p with
        | Some msg => (Raise (Exception msg), w)
        | None => (Ok tt, set_fs (Store.remove p (fs w)) w)
        end
    | Some Dir => (Raise (Exception "IsADirectoryError"), w)
    | None => (Raise (Exception "FileNotFoundError"), w)
    end.

(** The head and tail that [os.makedirs] computes for a path: those of
    [os.path.split], taken once more on the head when the tail is empty
    (a path written with a separator at its end). *)
Definition head_tail (name : string) : string * string :=
  let '(head, tail) := PosixPath.split name in
  if negb (PyStr.truthy tail) then PosixPath.split head else (head, tail).

(** [os.path.exists(p)]: a node of the store or the root, which no store
    holds as a key. *)
Definition path_exists (p : string) : M bool :=
  fun w =>
    (Ok (match Store.lookup p (fs w) with
         | Some _ => true
         | None => PyStr.truthy p && PyStr.all_char PosixPath.sep p
         end), w).

(** [os.mkdir(name)]: the path must be new and the directory it is made
    in must be there: the current directory (an empty head), the root, or
    a directory of the store. *)
Definition mkdir (err : string -> option string) (name : string) : M unit :=
  fun w =>
    if negb (PyStr.truthy name)
    then (Raise (Exception "FileNotFoundError"), w)
    else match Store.lookup name (fs w) with
         | Some _ => (Raise (Exception "FileExistsError"), w)
         | None =>
             let head := fst (head_tail name) in
             if negb (PyStr.truthy head)
                || PyStr.all_char PosixPath.sep head
                || Store.isdir head (fs w)
             then match err name with
                  | Some msg => (Raise (Exception msg), w)
                  | None => (Ok tt, set_fs (Store.write name Dir (fs w)) w)
                  end
             else match Store.lookup head (fs w) with
                  | Some _ => (Raise (Exception "NotADirectoryError"), w)
                  | None => (Raise (Exception "FileNotFoundError"), w)
                  end
         end.

(** [os.makedirs(name, exist_ok=True)]: the missing directories above the
    path are made first, outermost first, and stay when a later step
    fails; then the path itself is made, and a failure of that is
    forgiven when the path is a directory.  The recursion is on the head,
    which is shorter than the path: [fuel] bounds it, and the length of
    the path is enough.  The oracle [err] stands for failures of
    [os.mkdir] other than [FileExistsError], so the handler of that
    exception around the recursive call has nothing to catch.  As the
    store takes paths as written, a path that ends in [/.] is a key of
    its own and is made like any other. *)
Fixpoint makedirs_from (fuel : nat) (err : string -> option string)
    (name : string) : M unit :=
  let '(head, tail) := head_tail name in
  (if PyStr.truthy head && PyStr.truthy tail then
     ex <- path_exists head ;;
     when (negb ex)
       (match fuel with
        | O => ret tt
        | S fuel' => makedirs_from fuel' err head
        end)
   else ret tt) ;;
  fun w =>
    match mkdir err name w with
    | (Raise e, w') =>
        if Store.isdir name (fs w') then (Ok tt, w') else (Raise e, w')
    | r => r
    end.

Definition makedirs (E : env) (d : string) : M unit :=
  fun w =>
    if negb (PyStr.truthy d) then (Raise (Exception "FileNotFoundError"), w)
    else makedirs_from (String.length d) (makedirs_error E) d w.

End OS.

(** [PdfReader(input_file)] together with [reader.pages] *)
Definition PdfReader (input_file : string) : M (list page) :=
  fun w =>
    match Store.lookup input_file (fs w) with
    | Some (File (Pdf pages)) => (Ok pages, w)
    | Some (File _) => (Raise (Exception "PdfReadError"), w)
    | Some Dir => (Raise (Exception "IsADirectoryError"), w)
    | None => (Raise (Exception "FileNotFoundError"), w)
    end.

Definition extract_text (p : page) : M string :=
  match p with
  | Page text => ret text
  | Damaged msg => raise (Exception msg)
  end.

(** [with tempfile.TemporaryDirectory() as temp_dir: body] *)
Definition with_TemporaryDirectory {A} (sv : service) (body : string -> M A)
  : M A :=
  fun w =>
    match tempdir sv with
    | Fails msg => (Raise (Exception msg), w)
    | Returns temp_dir =>
        let '(r, w') := body temp_dir (set_tmp ∅ w) in
        (r, set_tmp ∅ w')
    end.

(** [gTTS(text=text, lang=language).save(path)] *)
Definition gTTS_save (sv : service) (i : nat) (text language path : string)
  : M unit :=
  fun w =>
    match tts_error sv i text language with
    | Some msg => (Raise (Exception msg), w)
    | None => (Ok tt, set_tmp (<[path := [Speech text language]]> (tmp w)) w)
    end.

(** [AudioSegment.from_mp3(temp_file)] *)
Definition from_mp3 (sv : service) (temp_file : string) : M audio :=
  fun w =>
    match tmp w !! temp_file with
    | None => (Raise (Exception "FileNotFoundError"), w)
    | Some a =>
        match decode_error sv temp_file with
        | Some msg => (Raise (Exception msg), w)
        | None => (Ok a, w)
        end
    end.

(** [combined.export(output_file, format="mp3")] *)
Definition export (sv : service) (combined : audio) (output_file : string)
  : M unit :=
  fun w =>
    if Store.isdir output_file (fs w)
    then (Raise (Exception "IsADirectoryError"), w)
    else match export_outcome sv output_file with
         | Encoded =>
             (Ok tt,
              set_fs (Store.write output_file (File (Mp3 combined)) (fs w)) w)
         | OpenFails msg => (Raise (Exception msg), w)
         | EncodeFails msg =>
             (Raise (Exception msg),
              set_fs (Store.write output_file (File (Bytes "")) (fs w)) w)
         end.

(** ** The program *)

Import PyStr PosixPath.

(** The loop over [enumerate(reader.pages)] *)
Fixpoint pages_loop (sv : service) (temp_dir language : string) (i : nat)
    (pages : list page) (temp_audio_files : list string) : M (list string) :=
  match pages with
  | [] => ret temp_audio_files
  | pg :: rest =>
      text <- extract_text pg ;;
      temp_audio_files' <-
        (if truthy (strip text) then
           let temp_audio_file :=
             join temp_dir ("page_" +:+ pretty (i + 1)%nat +:+ ".mp3") in
           gTTS_save sv i text language temp_audio_file ;;
           ret (temp_audio_files ++ [temp_audio_file])%list
         else ret temp_audio_files) ;;
      pages_loop sv temp_dir language (S i) rest temp_audio_files'
  end.

(** The loop over [temp_audio_files] *)
Fixpoint combine_loop (sv : service) (temp_audio_files : list string)
    (combined : audio) : M audio :=
  match temp_audio_files with
  | [] => ret combined
  | temp_file :: rest =>
      seg <- from_mp3 sv temp_file ;;
      combine_loop sv rest (combined ++ seg)%list
  end.

Definition nonempty {A} (l : list A) : bool :=
  match l with [] => false | _ :: _ => true end.

(** The body of the [try] of [pdf_to_audio] *)
Definition pdf_to_audio_body (sv : service)
    (input_file output_file language : string) : M bool :=
  logger DEBUG ("Starting conversion of " +:+ input_file) ;;
  reader <- PdfReader input_file ;;
  with_TemporaryDirectory sv (fun temp_dir =>
    temp_audio_files <- pages_loop sv temp_dir language 0 reader [] ;;
    if nonempty temp_audio_files then
      combined <- combine_loop sv temp_audio_files [] ;;
      export sv combined output_file ;;
      logger DEBUG ("Successfully converted " +:+ input_file +:+ " to "
                    +:+ output_file) ;;
      ret true
    else
      logger WARNING ("No text content found in " +:+ input_file) ;;
      ret false).

Definition pdf_to_audio (sv : service)
    (input_file output_file language : string) : M bool :=
  record_call (input_file, output_file, language) ;;
  try_except (pdf_to_audio_body sv input_file output_file language)
    (fun e =>
       logger ERROR ("Error processing " +:+ input_file +:+ ": " +:+ e) ;;
       ret false).

Definition process_pdf (sv : service) (args : work_item) : M bool :=
  let '(input_file, output_file, language) := args in
  pdf_to_audio sv input_file output_file language.

(** The loop over [files] in [cleanup_output_folder] *)
Fixpoint cleanup_loop (E : env) (output_folder : string)
    (files : list string) : M unit :=
  match files with
  | [] => ret tt
  | filename :: rest =>
      let file_path := join output_folder filename in
      b <- OS.isfile file_path ;;
      when b (OS.unlink E file_path) ;;
      cleanup_loop E output_folder rest
  end.

Definition cleanup_output_folder (E : env) (output_folder : string)
  : M unit :=
  try_except
    (files <- OS.listdir E output_folder ;;
     when (nonempty files)
       (cleanup_loop E output_folder files ;;
        logger DEBUG ("Cleaned up output folder: " +:+ output_folder)))
    (fun e =>
       logger ERROR ("Error cleaning up output folder " +:+ output_folder
                     +:+ ": " +:+ e)).

Definition nl : string := String (ascii_of_nat 10) EmptyString.

Fixpoint repeat_string (n : nat) (s : string) : string :=
  match n with
  | O => EmptyString
  | S n' => s +:+ repeat_string n' s
  end.

(** The format field [{:<n}]: pad on the right to width [n]. *)
Definition ljust (n : nat) (s : string) : string :=
  s +:+ repeat_string (n - String.length s) " ".

Definition fmt (code name : string) : string :=
  ljust 10 code +:+ " " +:+ ljust 30 name.

Fixpoint print_languages (l : list (string * string)) : M unit :=
  match l with
  | [] => ret tt
  | (code, name) :: rest => print (fmt code name) ;; print_languages rest
  end.

Definition tts_langs (E : env) : M (list (string * string)) :=
  match languages E with
  | Returns l => ret l
  | Fails msg => raise (Exception msg)
  end.

Definition list_languages (E : env) : M unit :=
  try_except
    (langs <- tts_langs E ;;
     print (nl +:+ "Available languages:") ;;
     print (fmt "Code" "Language") ;;
     print (repeat_string 40 "-") ;;
     print_languages langs)
    (fun e => logger ERROR ("Error listing languages: " +:+ e)).

(** ** The worker pool

    [multiprocessing.Pool(jobs)] refuses a worker count below one.  The
    workers complete their items in the order of their finishing times;
    each completed item stores its result under the item's index, and the
    iterator of [pool.imap] hands the results out by ascending index. *)

Definition finishes_before (E : env) : relation nat :=
  fun i j => (finish_time E i <= finish_time E j)%nat.

#[global] Instance finishes_before_dec E : RelDecision (finishes_before E).
Proof. intros i j. unfold finishes_before. apply _. Defined.

Definition completion_order (E : env) (K : nat) : list nat :=
  merge_sort (finishes_before E) (seq 0 K).

Fixpoint pool_run (E : env) (process_args : list work_item)
    (order : list nat) (items : gmap nat bool) : M (gmap nat bool) :=
  match order with
  | [] => ret items
  | k :: rest =>
      match process_args !! k with
      | Some a =>
          r <- process_pdf (svc E k) a ;;
          pool_run E process_args rest (<[k := r]> items)
      | None => pool_run E process_args rest items
      end
  end.

Fixpoint imap_next (items : gmap nat bool) (index : nat) (n : nat)
  : list bool :=
  match n with
  | O => []
  | S n' =>
      match items !! index with
      | Some r => r :: imap_next items (S index) n'
      | None => []
      end
  end.

Definition pool_imap (E : env) (jobs : Z) (process_args : list work_item)
  : M (list bool) :=
  if jobs <? 1
  then raise (Exception "Number of processes must be at least 1")
  else
    let K := length process_args in
    items <- pool_run E process_args (completion_order E K) ∅ ;;
    ret (imap_next items 0 K).

(** [sum(results)]: [True] counts 1 and [False] 0. *)
Definition sum (results : list bool) : Z :=
  fold_left (fun acc (b : bool) => acc + (if b then 1 else 0)) results 0.

(** ** [main] *)

(** The parsed command line. *)
Record arguments : Type := Args {
  input : option string;
  file : option string;
  output : option string;
  language : string;
  clean : bool;
  list_languages_flag : bool;
  jobs : Z
}.

(** Truth value of an optional argument: absent and empty are false. *)
Definition given (o : option string) : bool :=
  match o with
  | Some s => truthy s
  | None => false
  end.

(** [o or d] *)
Definition or_default (o : option string) (d : string) : string :=
  match o with
  | Some s => if truthy s then s else d
  | None => d
  end.

(** The branch [if args.file:] *)
Definition single_file (E : env) (args : arguments) (f : string) : M unit :=
  b <- OS.isfile f ;;
  when (negb b)
    (logger ERROR ("Error: Input file '" +:+ f +:+ "' does not exist.") ;;
     sys_exit 1) ;;
  when (negb (endswith (lower f) ".pdf"))
    (logger ERROR ("Error: Input file '" +:+ f +:+ "' is not a PDF file.") ;;
     sys_exit 1) ;;
  let output_folder := or_default (output args) "output" in
  OS.makedirs E output_folder ;;
  let output_file :=
    join output_folder (fst (splitext (basename f)) +:+ ".mp3") in
  ok <- pdf_to_audio (svc E 0) f output_file (language args) ;;
  (if ok : bool
   then logger INFO (nl +:+ "Conversion complete. Audio saved as "
                     +:+ output_file)
   else logger ERROR "Conversion failed.") ;;
  sys_exit 0.

(** The list [process_args] built from [pdf_files] *)
Definition work_items (input_folder output_folder lang : string)
    (pdf_files : list string) : list work_item :=
  map (fun filename =>
         let input_path := join input_folder filename in
         let output_path :=
           join output_folder (fst (splitext filename) +:+ ".mp3") in
         (input_path, output_path, lang))
      pdf_files.

Definition select_pdf_files (names : list string) : list string :=
  List.filter (fun f => endswith f ".pdf") names.

(** The conversion of the selected files: the work items, the pool and
    the summary. *)
Definition convert_all (E : env) (args : arguments)
    (input_folder output_folder : string) (pdf_files : list string)
  : M unit :=
  let process_args :=
    work_items input_folder output_folder (language args) pdf_files in
  logger INFO ("Starting conversion of " +:+ pretty (length pdf_files)
               +:+ " PDFs using " +:+ pretty (jobs args)
               +:+ " parallel jobs") ;;
  results <- pool_imap E (jobs args) process_args ;;
  let successful := sum results in
  logger INFO (nl +:+ "Conversion complete. " +:+ pretty successful
               +:+ " out of " +:+ pretty (length pdf_files)
               +:+ " files converted successfully.").

(** The folder conversion *)
Definition batch (E : env) (args : arguments) : M unit :=
  let input_folder := or_default (input args) "input" in
  let output_folder := or_default (output args) "output" in
  OS.makedirs E input_folder ;;
  OS.makedirs E output_folder ;;
  when (clean args) (cleanup_output_folder E output_folder) ;;
  names <- OS.listdir E input_folder ;;
  let pdf_files := select_pdf_files names in
  when (negb (nonempty pdf_files))
    (logger WARNING ("No PDF files found in the '" +:+ input_folder
                     +:+ "' folder. Please add PDF files to begin conversion.") ;;
     sys_exit 1) ;;
  convert_all E args input_folder output_folder pdf_files.

Definition main (E : env) (args : arguments) : M unit :=
  when (list_languages_flag args) (list_languages E ;; sys_exit 0) ;;
  when (given (file args))
    (single_file E args (default EmptyString (file args))) ;;
  batch E args.

(** The exit status of the process: the code of [sys.exit], 0 when
    [main] returns, 1 when an exception is not caught. *)
Definition exit_status (r : result unit) : Z :=
  match r with
  | Ok _ => 0
  | Raise (SystemExit code) => code
  | Raise (Exception _) => 1
  end.

Definition run (E : env) (args : arguments) (w : world) : Z * world :=
  let '(r, w') := main E args w in (exit_status r, w').

(** ** Vocabulary of the specification *)

(** The temporary file of the page with index [i]. *)
Definition fragment_path (temp_dir : string) (i : nat) : string :=
  join temp_dir ("page_" +:+ pretty (i + 1)%nat +:+ ".mp3").

(** The pages that are spoken: index and text of every page whose trimmed
    text is not empty, in page order, the first page having index [i]. *)
Fixpoint spoken (i : nat) (pages : list page) : list (nat * string) :=
  match pages with
  | [] => []
  | Page text :: rest =>
      if truthy (strip text) then (i, text) :: spoken (S i) rest
      else spoken (S i) rest
  | Damaged _ :: rest => spoken (S i) rest
  end.

(** The audio of a list of spoken pages: one clip per page, in order. *)
Definition speech (lang : string) (sp : list (nat * string)) : audio :=
  (fun kt => Speech (snd kt) lang) <$> sp.

Definition readable (pages : list page) : Prop :=
  Forall (fun pg => exists t, pg = Page t) pages.

Definition synthesized (sv : service) (lang : string)
    (sp : list (nat * string)) : Prop :=
  Forall (fun kt => tts_error sv (fst kt) (snd kt) lang = None) sp.

Definition decoded (sv : service) (temp_dir : string)
    (sp : list (nat * string)) : Prop :=
  Forall (fun kt => decode_error sv (fragment_path temp_dir (fst kt)) = None)
         sp.

(** Every step before the final export succeeds, on an input whose node
    in the store is [nin]. *)
Definition reaches_export (sv : service) (lang : string)
    (nin : option node) : Prop :=
  exists pages temp_dir,
    nin = Some (File (Pdf pages))
    /\ tempdir sv = Returns temp_dir
    /\ readable pages
    /\ synthesized sv lang (spoken 0 pages)
    /\ spoken 0 pages <> []
    /\ decoded sv temp_dir (spoken 0 pages).

(** What a conversion does to the store. *)
Inductive effect : Type :=
| Keep
| Put (n : node).

Definition apply_effect (output_file : string) (e : effect) (s : store)
  : store :=
  match e with
  | Keep => s
  | Put n => Store.write output_file n s
  end.

(** The stem of the base name of a path. *)
Definition stem (p : string) : string := fst (splitext (basename p)).

(** The store [s'] is the store [s] with new directories, if any. *)
Definition made (s s' : store) : Prop :=
  forall p, Store.lookup p s' = Store.lookup p s
            \/ (Store.lookup p s = None /\ Store.lookup p s' = Some Dir).

(** The output folder joined with the stem of the base name of the input
    file followed by [.mp3]. *)
Definition destination (output_folder input_file : string) : string :=
  join output_folder (stem input_file +:+ ".mp3").

(** The directory [d] exists and can be listed. *)
Definition listing_ok (E : env) (d : string) (w : world) : Prop :=
  truthy d = true /\ Store.lookup d (fs w) = Some Dir
  /\ listdir_error E d = None.

(** The result [r] of the body of [pdf_to_audio] and its effect [e] on the
    store, for an input whose node is [nin] and a destination that is a
    directory or not ([odir]): either some step before the export fails
    or finds nothing to say, and the store is kept; or the export is
    reached and decides. *)
Definition body_outcome (sv : service) (lang output_file : string)
    (nin : option node) (odir : bool) (r : result bool) (e : effect) : Prop :=
  (~ reaches_export sv lang nin /\ e = Keep
   /\ (r = Ok false \/ exists msg, r = Raise (Exception msg)))
  \/ (exists pages,
        nin = Some (File (Pdf pages)) /\ reaches_export sv lang nin
        /\ if odir then e = Keep /\ exists msg, r = Raise (Exception msg)
           else match export_outcome sv output_file with
                | Encoded =>
                    r = Ok true
                    /\ e = Put (File (Mp3 (speech lang (spoken 0 pages))))
                | OpenFails msg => r = Raise (Exception msg) /\ e = Keep
                | EncodeFails msg =>
                    r = Raise (Exception msg)
                    /\ e = Put (File (Bytes EmptyString))
                end).

(** The boolean [b] that [pdf_to_audio] returns and its effect [e] on the
    store: the result of the body with every exception turned into
    [false]. *)
Definition convert_outcome (sv : service) (lang output_file : string)
    (nin : option node) (odir : bool) (b : bool) (e : effect) : Prop :=
  (~ reaches_export sv lang nin /\ e = Keep /\ b = false)
  \/ (exists pages,
        nin = Some (File (Pdf pages)) /\ reaches_export sv lang nin
        /\ if odir then e = Keep /\ b = false
           else match export_outcome sv output_file with
                | Encoded =>
                    b = true
                    /\ e = Put (File (Mp3 (speech lang (spoken 0 pages))))
                | OpenFails _ => b = false /\ e = Keep
                | EncodeFails _ =>
                    b = false /\ e = Put (File (Bytes EmptyString))
                end).

(** ** A sample run *)

Module Demo.

(** Collaborators that never fail. *)
Definition sv : service :=
  Service (Returns "/tmp/tmpq") (fun _ _ _ => None) (fun _ => None)
          (fun _ => Encoded).

Definition E : env :=
  Env (fun _ => None) (fun _ => None) (fun _ => None)
      (Returns [("en", "English")]) (fun _ => sv) (fun k => (10 - k)%nat).

Definition pages : list page := [Page "hello"; Page "  "; Page "world"].

Definition w : world :=
  World [("input", Dir);
         ("input/a.pdf", File (Pdf pages));
         ("input/b.pdf", File (Pdf []));
         ("input/c.PDF", File (Pdf [Page "x"]));
         ("output", Dir);
         ("output/old.mp3", File (Bytes "z"));
         ("output/sub", Dir);
         ("output/sub/k", File (Bytes "z"))]
        ∅ [] [] [].

(** The deletion of [output/old.mp3] is refused. *)
Definition E_denied : env :=
  Env (fun _ => None)
      (fun p => if String.eqb p "output/old.mp3"
                then Some "PermissionError" else None)
      (fun _ => None)
      (Returns [("en", "English")]) (fun _ => sv) (fun k => k).

(** The making of [fresh/out] is refused. *)
Definition E_refused : env :=
  Env (fun _ => None) (fun _ => None)
      (fun p => if String.eqb p "fresh/out"
                then Some "PermissionError" else None)
      (Returns [("en", "English")]) (fun _ => sv) (fun k => k).

Definition w_locked : world :=
  World [("output", Dir);
         ("output/old.mp3", File (Bytes "z"));
         ("output/new.mp3", File (Bytes "y"))]
        ∅ [] [] [].

(** Folder mode with four workers, cleaning first. *)
Definition args_batch : arguments :=
  Args (Some "input") None None "en" true false 4.

(** Single-file mode on a document with an upper-case suffix, and on a
    path that does not exist. *)
Definition args_single : arguments :=
  Args None (Some "input/c.PDF") None "en" false false 4.


End Demo.

(** The boolean the converter returns on a work item in world [w]. *)
Definition converts (sv : service) (it : work_item) (w : world) : bool :=
  match process_pdf sv it w with
  | (Ok b, _) => b
  | (Raise _, _) => false
  end.

(** The store [s] differs from [s0] only by regular files written at
    paths that are not documents: documents are as in [s0], and so is
    what is a directory. *)
Definition same_documents (s0 s : store) : Prop :=
  forall p,
    (endswith p ".pdf" = true -> Store.lookup p s = Store.lookup p s0)
    /\ Store.isdir p s = Store.isdir p s0.

(** The number of [True] in a list of results. *)
Definition count_true (results : list bool) : nat :=
  length (List.filter (fun b : bool => b) results).

(** A work item reads a document and writes an MP3 file. *)
Definition item_ok (it : work_item) : Prop :=
  endswith (fst (fst it)) ".pdf" = true
  /\ endswith (snd (fst it)) ".mp3" = true.

(** The steps of [batch] up to the listing of the input folder. *)
Definition batch_listing (E : env) (args : arguments) : M (list string) :=
  let input_folder := or_default (input args) "input" in
  let output_folder := or_default (output args) "output" in
  OS.makedirs E input_folder ;;
  OS.makedirs E output_folder ;;
  when (clean args) (cleanup_output_folder E output_folder) ;;
  OS.listdir E input_folder.

(** The environment [E] with other collaborators for the conversions and
    other finishing times of the workers. *)
Definition with_conversions (E : env) (svc' : nat -> service)
    (finish_time' : nat -> nat) : env :=
  Env (listdir_error E) (unlink_error E) (makedirs_error E) (languages E)
      svc' finish_time'.

(** The string is made of dots only (the empty string is). *)
Fixpoint all_dots (s : string) : bool :=
  match s with
  | EmptyString => true
  | String c r => Ascii.eqb c "." && all_dots r
  end.

(** The stem the program gives to the listed name [base.pdf]: [base],
    unless [base] is made of dots only, when the name has no extension
    for [os.path.splitext] and is its own stem. *)
Definition pdf_stem (base : string) : string :=
  if all_dots base then base +:+ ".pdf" else base.

(** * Properties *)

(** ** Strings *)

Module StrFacts.
Import PyStr.

Lemma app_cons a s t : String a s +:+ t = String a (s +:+ t).
Proof. reflexivity. Qed.

Lemma app_nil_l s : EmptyString +:+ s = s.
Proof. reflexivity. Qed.

Lemma app_nil_r s : s +:+ EmptyString = s.
Proof. induction s as [|a s IH]; [done|]. by rewrite app_cons, IH. Qed.

Lemma app_assoc s t u : (s +:+ t) +:+ u = s +:+ (t +:+ u).
Proof. induction s as [|a s IH]; [done|]. by rewrite !app_cons, IH. Qed.

Lemma chars_app s t :
  list_ascii_of_string (s +:+ t)
  = (list_ascii_of_string s ++ list_ascii_of_string t)%list.
Proof.
  induction s as [|a s IH]; [done|]. rewrite app_cons. simpl. by rewrite IH.
Qed.

Lemma chars_inj s t :
  list_ascii_of_string s = list_ascii_of_string t -> s = t.
Proof.
  intros H. rewrite <- (string_of_list_ascii_of_string s),
    <- (string_of_list_ascii_of_string t). by rewrite H.
Qed.

Lemma chars_length s : length (list_ascii_of_string s) = String.length s.
Proof. induction s as [|a s IH]; simpl; [done|]. by rewrite IH. Qed.

Lemma app_inv_tail s1 s2 t : s1 +:+ t = s2 +:+ t -> s1 = s2.
Proof.
  intros H. apply chars_inj.
  apply (f_equal list_ascii_of_string) in H. rewrite !chars_app in H.
  by apply (inj (fun l => l ++ list_ascii_of_string t)%list) in H.
Qed.

Lemma app_inj_tail s1 s2 t1 t2 :
  String.length t1 = String.length t2 ->
  s1 +:+ t1 = s2 +:+ t2 -> s1 = s2 /\ t1 = t2.
Proof.
  intros Hl H. apply (f_equal list_ascii_of_string) in H.
  rewrite !chars_app in H. apply app_inj_2 in H.
  - destruct H as [H1 H2]. split; by apply chars_inj.
  - by rewrite !chars_length.
Qed.

Lemma endswith_unfold s suf :
  endswith s suf
  = if String.eqb s suf then true
    else match s with
         | EmptyString => false
         | String _ r => endswith r suf
         end.
Proof. by destruct s. Qed.

Lemma endswith_refl s : endswith s s = true.
Proof. by rewrite endswith_unfold, String.eqb_refl. Qed.

Lemma endswith_app p suf : endswith (p +:+ suf) suf = true.
Proof.
  induction p as [|a p IH]; [apply endswith_refl|].
  rewrite app_cons, endswith_unfold. by destruct (String.eqb _ _).
Qed.

Lemma endswith_inv s suf :
  endswith s suf = true -> exists p, s = p +:+ suf.
Proof.
  induction s as [|a s IH]; rewrite endswith_unfold.
  - destruct (String.eqb_spec EmptyString suf) as [<-|Hne]; [|done].
    by exists EmptyString.
  - destruct (String.eqb_spec (String a s) suf) as [<-|Hne].
    + by exists EmptyString.
    + intros H. destruct (IH H) as [p ->].
      exists (String a p). by rewrite app_cons.
Qed.

Lemma endswith_iff s suf :
  endswith s suf = true <-> exists p, s = p +:+ suf.
Proof.
  split; [apply endswith_inv|]. intros [p ->]. apply endswith_app.
Qed.


Lemma lower_length s : String.length (lower s) = String.length s.
Proof. induction s as [|a s IH]; simpl; [done|]. by rewrite IH. Qed.

Lemma rstrip_truthy c r : isspace c = false -> truthy (rstrip (String c r)) = true.
Proof. intros H. simpl. rewrite H. by destruct (rstrip r). Qed.

(** The trimmed text is empty exactly when every character is white
    space. *)
Lemma truthy_strip s : truthy (strip s) = negb (all_space s).
Proof.
  unfold strip. induction s as [|c s IH]; [done|].
  simpl lstrip. simpl all_space. destruct (isspace c) eqn:Hc; [done|].
  by rewrite rstrip_truthy.
Qed.

Lemma startswith_cons a s : startswith (String a s) "/" = Ascii.eqb a "/".
Proof.
  unfold startswith.
  change (String.prefix "/" (String a s))
    with (if ascii_dec "/" a then String.prefix EmptyString s else false).
  destruct (ascii_dec "/" a) as [<-|Hne]; [by destruct s|].
  symmetry. apply Ascii.eqb_neq. congruence.
Qed.

Lemma contains_startswith s :
  contains "/" s = false -> startswith s "/" = false.
Proof.
  destruct s as [|a s]; [done|]. rewrite startswith_cons. simpl.
  by intros [? ?]%orb_false_elim.
Qed.

Lemma contains_app c s t :
  contains c (s +:+ t) = contains c s || contains c t.
Proof.
  induction s as [|a s IH]; [done|].
  rewrite app_cons. simpl. rewrite IH. by rewrite orb_assoc.
Qed.

Lemma rfind_from_absent c s i acc :
  contains c s = false -> rfind_from c s i acc = acc.
Proof.
  revert i acc. induction s as [|a s IH]; intros i acc; simpl; [done|].
  intros [-> ?]%orb_false_elim. by apply IH.
Qed.

Lemma rfind_from_last c p n i acc :
  contains c n = false ->
  rfind_from c (p +:+ String c n) i acc = i + Z.of_nat (String.length p).
Proof.
  revert i acc. induction p as [|a p IH]; intros i acc Hn.
  - rewrite app_nil_l. simpl. rewrite Ascii.eqb_refl.
    rewrite rfind_from_absent by done. lia.
  - rewrite app_cons. simpl. rewrite IH by done. lia.
Qed.

Lemma drop_app_length p s : drop (String.length p) (p +:+ s) = s.
Proof. induction p as [|a p IH]; [done|]. by rewrite app_cons. Qed.

Lemma take_app_length p s : take (String.length p) (p +:+ s) = p.
Proof.
  induction p as [|a p IH]; [by destruct s|].
  rewrite app_cons. simpl. by rewrite IH.
Qed.

End StrFacts.

(** ** Paths *)

Module PathFacts.
Import PyStr PosixPath StrFacts.

(** [join a b] always ends with [b]. *)
Lemma join_suffix a b : exists x, join a b = x +:+ b.
Proof.
  unfold join. destruct (startswith b "/").
  - by exists EmptyString.
  - destruct (negb (truthy a) || endswith a "/").
    + by exists a.
    + exists (a +:+ "/"). by rewrite app_assoc.
Qed.

Lemma join_relative a b :
  startswith b "/" = false -> join a b = join a EmptyString +:+ b.
Proof.
  intros Hb. unfold join. rewrite Hb.
  change (startswith EmptyString "/") with false. cbv iota.
  destruct (negb (truthy a) || endswith a "/").
  - by rewrite app_nil_r.
  - by rewrite app_nil_r, app_assoc.
Qed.

Lemma join_inj a b1 b2 :
  startswith b1 "/" = false -> startswith b2 "/" = false ->
  join a b1 = join a b2 -> b1 = b2.
Proof.
  intros H1 H2. rewrite (join_relative a b1), (join_relative a b2) by done.
  apply (inj (String.app _)).
Qed.

Lemma join_endswith a b suf :
  endswith b suf = true -> endswith (join a b) suf = true.
Proof.
  intros [p ->]%endswith_inv. destruct (join_suffix a (p +:+ suf)) as [x ->].
  rewrite <- app_assoc. apply endswith_app.
Qed.

Lemma basename_plain n : contains "/" n = false -> basename n = n.
Proof.
  intros H. unfold basename, rfind, sep.
  by rewrite rfind_from_absent.
Qed.

Lemma basename_after_sep q n :
  contains "/" n = false -> basename (q +:+ String "/" n) = n.
Proof.
  intros H. unfold basename, rfind, sep. rewrite rfind_from_last by done.
  unfold slice_from.
  replace (Z.to_nat (0 + Z.of_nat (String.length q) + 1))
    with (String.length (q +:+ "/")).
  - change (String "/" n) with ("/" +:+ n).
    rewrite <- app_assoc. apply drop_app_length.
  - rewrite <- chars_length, chars_app, length_app, !chars_length.
    simpl. lia.
Qed.

(** The base name of a path built by [join] from a name that holds no
    separator is that name. *)
Lemma basename_join d n : contains "/" n = false -> basename (join d n) = n.
Proof.
  intros Hn. unfold join. rewrite contains_startswith by done.
  destruct (truthy d) eqn:Hd; simpl.
  - destruct (endswith d "/") eqn:He.
    + apply endswith_inv in He as [q ->]. rewrite app_assoc.
      by apply basename_after_sep.
    + by apply basename_after_sep.
  - destruct d; [|done]. rewrite app_nil_l. by apply basename_plain.
Qed.

End PathFacts.

(** ** The file store *)

Module StoreFacts.
Import PyStr PosixPath StrFacts PathFacts Store.

Lemma lookup_write p q n s :
  lookup p (write q n s) = if decide (q = p) then Some n else lookup p s.
Proof.
  induction s as [|[k m] s IH]; simpl.
  - done.
  - destruct (decide (k = q)) as [->|Hkq]; simpl.
    + destruct (decide (q = p)); done.
    + rewrite IH. destruct (decide (k = p)) as [->|Hkp]; [|done].
      by rewrite decide_False by congruence.
Qed.

Lemma lookup_write_eq p n s : lookup p (write p n s) = Some n.
Proof. by rewrite lookup_write, decide_True. Qed.

Lemma lookup_write_ne p q n s : q <> p -> lookup p (write q n s) = lookup p s.
Proof. intros. by rewrite lookup_write, decide_False. Qed.

Lemma lookup_remove p q s :
  lookup p (remove q s) = if decide (q = p) then None else lookup p s.
Proof.
  unfold remove. induction s as [|[k m] s IH]; simpl.
  - by destruct (decide (q = p)).
  - destruct (String.eqb_spec k q) as [->|Hkq]; simpl.
    + rewrite IH. destruct (decide (q = p)); done.
    + rewrite IH. destruct (decide (k = p)) as [->|Hkp]; [|done].
      by rewrite decide_False by congruence.
Qed.

Lemma lookup_remove_eq p s : lookup p (remove p s) = None.
Proof. by rewrite lookup_remove, decide_True. Qed.

Lemma lookup_remove_ne p q s : q <> p -> lookup p (remove q s) = lookup p s.
Proof. intros. by rewrite lookup_remove, decide_False. Qed.

Lemma lookup_elem_of p n s : lookup p s = Some n -> (p, n) ∈ s.
Proof.
  induction s as [|[k m] s IH]; simpl; [done|].
  destruct (decide (k = p)) as [->|Hne].
  - intros [= ->]. apply list_elem_of_here.
  - intros H. apply list_elem_of_further. auto.
Qed.

Lemma strip_prefix_Some pre s n :
  strip_prefix pre s = Some n -> s = pre +:+ n.
Proof.
  revert s. induction pre as [|a pre IH]; intros s.
  - destruct s; simpl; by intros [= <-].
  - destruct s as [|b s]; simpl; [done|].
    destruct (Ascii.eqb_spec a b) as [->|Hne]; [|done].
    intros H. by rewrite app_cons, (IH _ H).
Qed.

Lemma strip_prefix_app pre n : strip_prefix pre (pre +:+ n) = Some n.
Proof.
  induction pre as [|a pre IH]; [by destruct n|].
  rewrite app_cons. simpl. by rewrite Ascii.eqb_refl.
Qed.

(** An entry name holds no separator, and joined to its directory it
    gives back the path. *)
Lemma child_name_Some d p n :
  child_name d p = Some n ->
  p = join d n /\ contains "/" n = false /\ truthy n = true.
Proof.
  unfold child_name.
  destruct (strip_prefix (join d "") p) as [m|] eqn:Hm; [|done].
  destruct (truthy m) eqn:Ht; [|done].
  destruct (contains "/" m) eqn:Hc; [done|]. simpl.
  destruct (negb (m =? ".")%string && negb (m =? "..")%string); [|done].
  intros [= <-]. split_and!; [|done..].
  rewrite join_relative by by apply contains_startswith.
  by apply strip_prefix_Some.
Qed.

Lemma entries_spec d s n :
  n ∈ entries d s <-> exists p m, (p, m) ∈ s /\ child_name d p = Some n.
Proof.
  unfold entries. rewrite list_elem_of_omap. split.
  - intros [[p m] [? ?]]. by exists p, m.
  - intros (p & m & ? & ?). by exists (p, m).
Qed.

Lemma entries_relative d s n :
  n ∈ entries d s -> contains "/" n = false.
Proof.
  intros (p & m & _ & H)%entries_spec. by apply child_name_Some in H as (_ & ? & _).
Qed.

Lemma isfile_lookup p s : isfile p s = true <-> exists c, lookup p s = Some (File c).
Proof.
  unfold isfile. destruct (lookup p s) as [[c|]|]; split; try done.
  - by exists c.
  - by intros [? ?].
  - by intros [? ?].
Qed.

(** A regular file directly inside [d] is listed by [entries d]. *)
Lemma isfile_entry d p n s :
  child_name d p = Some n -> isfile p s = true -> n ∈ entries d s.
Proof.
  intros Hn [c Hc]%isfile_lookup. apply entries_spec.
  exists p, (File c). split; [|done]. by apply lookup_elem_of.
Qed.

End StoreFacts.

(** ** Output cleanup *)

Module CleanupFacts.
Import PyStr PosixPath StrFacts PathFacts Store StoreFacts.

Lemma set_fs_id w : set_fs (fs w) w = w.
Proof. by destruct w. Qed.

Lemma set_fs_twice s1 s2 w : set_fs s2 (set_fs s1 w) = set_fs s2 w.
Proof. done. Qed.

Lemma cleanup_loop_cons E d n rest w :
  cleanup_loop E d (n :: rest) w
  = match lookup (join d n) (fs w) with
    | Some (File _) =>
        match unlink_error E (join d n) with
        | Some msg => (Raise (Exception msg), w)
        | None =>
            cleanup_loop E d rest (set_fs (remove (join d n) (fs w)) w)
        end
    | _ => cleanup_loop E d rest w
    end.
Proof.
  cbn [cleanup_loop]. unfold bind, OS.isfile, isfile, when, OS.unlink, ret.
  destruct (lookup (join d n) (fs w)) as [[c|]|] eqn:Hn; cbn; try done.
  rewrite Hn. by destruct (unlink_error E (join d n)).
Qed.

Lemma cleanup_loop_app E d l1 l2 w :
  cleanup_loop E d (l1 ++ l2) w
  = match cleanup_loop E d l1 w with
    | (Ok _, w1) => cleanup_loop E d l2 w1
    | (Raise e, w1) => (Raise e, w1)
    end.
Proof.
  revert w. induction l1 as [|n l1 IH]; intros w; [done|].
  rewrite <- app_comm_cons, !cleanup_loop_cons.
  destruct (lookup (join d n) (fs w)) as [[c|]|]; try apply IH.
  destruct (unlink_error E (join d n)); [done|apply IH].
Qed.

(** What the deletion loop does to the store: it raises nothing but an
    [Exception], it changes a path only by deleting a regular file whose
    name is in [files], and when no deletion fails it deletes all of
    these. *)
Lemma cleanup_loop_spec E d files w :
  exists r s',
    cleanup_loop E d files w = (r, set_fs s' w)
    /\ (r = Ok tt \/ exists msg, r = Raise (Exception msg))
    /\ (forall p, lookup p s' = lookup p (fs w)
                  \/ (isfile p (fs w) = true /\ p ∈ (join d <$> files)
                      /\ lookup p s' = None))
    /\ ((forall n, n ∈ files -> isfile (join d n) (fs w) = true ->
                   unlink_error E (join d n) = None) ->
        r = Ok tt
        /\ forall n, n ∈ files -> isfile (join d n) (fs w) = true ->
                     lookup (join d n) s' = None).
Proof.
  revert w. induction files as [|n rest IH]; intros w.
  - exists (Ok tt), (fs w). rewrite set_fs_id. split_and!; try done.
    + by left.
    + by left.
    + intros _. split; [done|]. by intros n ?%elem_of_nil.
  - rewrite cleanup_loop_cons.
    destruct (lookup (join d n) (fs w)) as [[c|]|] eqn:Hn.
    + destruct (unlink_error E (join d n)) as [msg|] eqn:Hu.
      * exists (Raise (Exception msg)), (fs w). rewrite set_fs_id.
        split_and!; [done|right; by exists msg|by left|].
        intros H. rewrite H in Hu; [done|apply list_elem_of_here|].
        unfold isfile. by rewrite Hn.
      * destruct (IH (set_fs (remove (join d n) (fs w)) w))
          as (r & s' & Hrun & Hr & Hframe & Hok).
        simpl fs in Hframe, Hok.
        exists r, s'. rewrite Hrun, set_fs_twice. split_and!; [done..| |].
        -- intros p. destruct (decide (join d n = p)) as [<-|Hne].
           ++ right. split_and!.
              ** unfold isfile. by rewrite Hn.
              ** rewrite fmap_cons. apply list_elem_of_here.
              ** destruct (Hframe (join d n)) as [->|(_ & _ & ->)]; [|done].
                 apply lookup_remove_eq.
           ++ destruct (Hframe p) as [->|(Hf & Hin & ->)].
              ** left. by apply lookup_remove_ne.
              ** right. split_and!; [|by apply list_elem_of_further|done].
                 unfold isfile in *. by rewrite lookup_remove_ne in Hf.
        -- intros H. destruct Hok as [-> Hdel].
           { intros m Hm Hf. apply H; [by apply list_elem_of_further|].
             unfold isfile in *. rewrite lookup_remove in Hf.
             by destruct (decide (join d n = join d m)). }
           split; [done|]. intros m Hm Hf.
           destruct (decide (join d n = join d m)) as [Heq|Hne].
           ++ rewrite <- Heq.
              destruct (Hframe (join d n)) as [->|(_ & _ & ->)]; [|done].
              apply lookup_remove_eq.
           ++ apply Hdel.
              ** apply elem_of_cons in Hm as [->|Hm]; done.
              ** unfold isfile in *. by rewrite lookup_remove_ne.
    + destruct (IH w) as (r & s' & Hrun & Hr & Hframe & Hok).
      exists r, s'. split_and!; [done..| |].
      * intros p. destruct (Hframe p) as [->|(Hf & Hin & ->)]; [by left|].
        right. split_and!; [done|by apply list_elem_of_further|done].
      * intros H. destruct Hok as [-> Hdel].
        { intros m Hm. apply H. by apply list_elem_of_further. }
        split; [done|]. intros m Hm Hf. apply Hdel; [|done].
        apply elem_of_cons in Hm as [->|Hm]; [|done].
        unfold isfile in Hf. by rewrite Hn in Hf.
    + destruct (IH w) as (r & s' & Hrun & Hr & Hframe & Hok).
      exists r, s'. split_and!; [done..| |].
      * intros p. destruct (Hframe p) as [->|(Hf & Hin & ->)]; [by left|].
        right. split_and!; [done|by apply list_elem_of_further|done].
      * intros H. destruct Hok as [-> Hdel].
        { intros m Hm. apply H. by apply list_elem_of_further. }
        split; [done|]. intros m Hm Hf. apply Hdel; [|done].
        apply elem_of_cons in Hm as [->|Hm]; [|done].
        unfold isfile in Hf. by rewrite Hn in Hf.
Qed.

(** The paths of the names that [os.listdir] reports are entries of the
    directory. *)
Lemma join_entry d s p :
  p ∈ (join d <$> entries d s) -> is_Some (child_name d p).
Proof.
  intros (n & -> & Hn)%list_elem_of_fmap.
  apply entries_spec in Hn as (p & m & _ & Hp).
  destruct (child_name_Some _ _ _ Hp) as (-> & _ & _). by exists n.
Qed.

Lemma listdir_ok E d w :
  listing_ok E d w -> OS.listdir E d w = (Ok (entries d (fs w)), w).
Proof.
  intros (Ht & Hd & He). unfold OS.listdir. by rewrite Ht, Hd, He.
Qed.

Lemma listdir_cases E d w :
  (listing_ok E d w /\ OS.listdir E d w = (Ok (entries d (fs w)), w))
  \/ exists msg, OS.listdir E d w = (Raise (Exception msg), w).
Proof.
  unfold OS.listdir, listing_ok.
  destruct (truthy d); simpl; [|right; by eexists].
  destruct (lookup d (fs w)) as [[c|]|]; [right; by eexists| |right; by eexists].
  destruct (listdir_error E d) as [msg|]; [right; by eexists|by left].
Qed.

(** The whole operation: it returns normally, and its final store is
    the initial one, when the listing fails, or the one the deletion
    loop leaves. *)
Lemma cleanup_output_folder_run E d w :
  exists w',
    cleanup_output_folder E d w = (Ok tt, w')
    /\ ((fs w' = fs w /\ ~ listing_ok E d w)
        \/ (listing_ok E d w
            /\ exists r, cleanup_loop E d (entries d (fs w)) w
                         = (r, set_fs (fs w') w))).
Proof.
  unfold cleanup_output_folder, try_except, bind.
  destruct (listdir_cases E d w) as [[Hok ->]|[msg Hl]].
  - unfold when. destruct (nonempty (entries d (fs w))) eqn:Hne.
    + destruct (cleanup_loop_spec E d (entries d (fs w)) w)
        as (r & s' & Hrun & [->|[msg ->]] & _).
      * rewrite Hrun. eexists. split; [done|]. right. split; [done|].
        by exists (Ok tt).
      * rewrite Hrun. eexists. split; [done|]. right. split; [done|].
        by exists (Raise (Exception msg)).
    + eexists. split; [done|]. right. split; [done|].
      exists (Ok tt). destruct (entries d (fs w)); [|done].
      simpl. by rewrite set_fs_id.
  - rewrite Hl. eexists. split; [done|]. left. split; [done|].
    intros Hok. rewrite (listdir_ok _ _ _ Hok) in Hl. done.
Qed.

End CleanupFacts.

(** C7.  [cleanup_output_folder] always returns normally, whatever fails
    inside it.  It changes the store in one way only: a path that was a
    regular file directly inside the output directory may be gone.  So
    directories stay, and so does every path that is not an entry of the
    output directory (the files below its subdirectories among them).
    When the directory can be listed and no deletion fails, every regular
    file directly inside it is gone afterwards. *)
Theorem cleanup_output_folder_deletes_direct_files
    (E : env) (output_folder : string) (w : world) :
  exists w',
    cleanup_output_folder E output_folder w = (Ok tt, w')
    /\ (forall p,
          Store.lookup p (fs w') = Store.lookup p (fs w)
          \/ (is_Some (Store.child_name output_folder p)
              /\ Store.isfile p (fs w) = true
              /\ Store.lookup p (fs w') = None))
    /\ (forall p, Store.isdir p (fs w) = true -> Store.isdir p (fs w') = true)
    /\ (forall p, Store.child_name output_folder p = None ->
                  Store.lookup p (fs w') = Store.lookup p (fs w))
    /\ (PyStr.truthy output_folder = true ->
        Store.isdir output_folder (fs w) = true ->
        listdir_error E output_folder = None ->
        (forall p, unlink_error E p = None) ->
        forall p, is_Some (Store.child_name output_folder p) ->
                  Store.isfile p (fs w) = true ->
                  Store.lookup p (fs w') = None).
Proof.
  destruct (CleanupFacts.cleanup_output_folder_run E output_folder w)
    as (w' & Hrun & Hfs).
  exists w'. split; [done|].
  pose proof (CleanupFacts.cleanup_loop_spec E output_folder
                (Store.entries output_folder (fs w)) w)
    as (r' & s' & Hrun' & _ & Hframe' & Hdel).
  assert (Hframe : forall p,
    Store.lookup p (fs w') = Store.lookup p (fs w)
    \/ (is_Some (Store.child_name output_folder p)
        /\ Store.isfile p (fs w) = true
        /\ Store.lookup p (fs w') = None)).
  { intros p. destruct Hfs as [[-> _]|(Hok & r & Hloop)]; [by left|].
    rewrite Hloop in Hrun'. injection Hrun' as _ ->.
    destruct (Hframe' p) as [?|(? & ?%CleanupFacts.join_entry & ?)]; auto. }
  split_and!; [done| | |].
  - intros p Hp. unfold Store.isdir, Store.isfile in *.
    destruct (Hframe p) as [->|(_ & Hf & _)]; [done|].
    by destruct (Store.lookup p (fs w)) as [[?|]|].
  - intros p Hp. destruct (Hframe p) as [->|([n Hn] & _)]; [done|congruence].
  - intros Ht Hd He Hu p [n Hn] Hf.
    destruct Hfs as [[_ Hno]|(Hok & r & Hloop)].
    + destruct Hno. split_and!; [done| |done]. unfold Store.isdir in Hd.
      by destruct (Store.lookup output_folder (fs w)) as [[?|]|].
    + rewrite Hloop in Hrun'. injection Hrun' as _ ->.
      destruct Hdel as [_ Hdel]; [by intros; apply Hu|].
      pose proof (StoreFacts.isfile_entry _ _ _ _ Hn Hf) as Hin.
      destruct (StoreFacts.child_name_Some _ _ _ Hn) as (-> & _ & _).
      by apply Hdel.
Qed.

(** C10.  The deletion loop is abandoned at the first deletion that
    fails: when the file named [n] of the listing cannot be deleted (and
    the ones listed before it could), the operation still returns
    normally and logs the error, the failing file is still there, and so
    is every entry listed after it, regular files that could have been
    deleted among them. *)
Theorem cleanup_output_folder_abandons_after_failure
    (E : env) (output_folder : string) (w : world)
    (pre : list string) (n : string) (post : list string) (msg : string) :
  PyStr.truthy output_folder = true ->
  Store.lookup output_folder (fs w) = Some Dir ->
  listdir_error E output_folder = None ->
  Store.entries output_folder (fs w) = (pre ++ n :: post)%list ->
  (forall m, m ∈ pre ->
             Store.isfile (join output_folder m) (fs w) = true ->
             unlink_error E (join output_folder m) = None) ->
  Store.isfile (join output_folder n) (fs w) = true ->
  unlink_error E (join output_folder n) = Some msg ->
  exists w',
    cleanup_output_folder E output_folder w = (Ok tt, w')
    /\ log w' = (log w ++ [(ERROR, "Error cleaning up output folder "
                                   +:+ output_folder +:+ ": " +:+ msg)])%list
    /\ Store.lookup (join output_folder n) (fs w')
       = Store.lookup (join output_folder n) (fs w)
    /\ forall m, m ∈ post -> m ∉ pre ->
                 Store.lookup (join output_folder m) (fs w')
                 = Store.lookup (join output_folder m) (fs w).
Proof.
  intros Ht Hd He Hent Hpre Hn Hu.
  destruct (CleanupFacts.cleanup_loop_spec E output_folder pre w)
    as (r & s1 & Hrun & _ & Hframe & Hok).
  destruct (Hok Hpre) as [-> _]. clear Hok.
  assert (Hkeep : Store.lookup (join output_folder n) s1
                  = Store.lookup (join output_folder n) (fs w)).
  { destruct (Hframe (join output_folder n))
      as [?|(_ & (m & Hm & Hin)%list_elem_of_fmap & _)]; [done|].
    rewrite Hm in Hn, Hu. rewrite (Hpre m Hin Hn) in Hu. done. }
  apply StoreFacts.isfile_lookup in Hn as [c Hc].
  eexists. split_and!.
  - unfold cleanup_output_folder, try_except, bind.
    rewrite CleanupFacts.listdir_ok by done. rewrite Hent.
    replace (nonempty (pre ++ n :: post)) with true by by destruct pre.
    unfold when, bind.
    rewrite CleanupFacts.cleanup_loop_app, Hrun,
      CleanupFacts.cleanup_loop_cons.
    simpl fs. rewrite Hkeep, Hc, Hu. reflexivity.
  - reflexivity.
  - simpl. done.
  - intros m Hpost Hnot. simpl.
    destruct (Hframe (join output_folder m))
      as [?|(_ & (m' & Hm & Hin)%list_elem_of_fmap & _)]; [done|].
    destruct Hnot. replace m with m'; [done|].
    symmetry. eapply PathFacts.join_inj; [| |exact Hm];
      apply StrFacts.contains_startswith,
        (StoreFacts.entries_relative output_folder (fs w));
      rewrite Hent, elem_of_app, elem_of_cons; auto.
Qed.

(** ** The single-document converter *)

Module ConverterFacts.
Import PyStr PosixPath StrFacts PathFacts Store StoreFacts.

Lemma fragment_path_inj d i j : fragment_path d i = fragment_path d j -> i = j.
Proof.
  unfold fragment_path. intros H.
  apply join_inj in H; [|done..].
  apply (inj (String.app "page_")) in H.
  apply app_inv_tail in H. apply (inj pretty) in H. lia.
Qed.

Lemma pages_loop_cons sv d lang i pg rest acc w :
  pages_loop sv d lang i (pg :: rest) acc w
  = match pg with
    | Damaged msg => (Raise (Exception msg), w)
    | Page text =>
        if truthy (strip text) then
          match tts_error sv i text lang with
          | Some msg => (Raise (Exception msg), w)
          | None =>
              pages_loop sv d lang (S i) rest (acc ++ [fragment_path d i])
                (set_tmp (<[fragment_path d i := [Speech text lang]]> (tmp w)) w)
          end
        else pages_loop sv d lang (S i) rest acc w
    end.
Proof.
  cbn [pages_loop]. unfold bind, extract_text, gTTS_save, ret, raise.
  destruct pg as [text|msg]; [|done].
  destruct (truthy (strip text)); [|done].
  by destruct (tts_error sv i text lang).
Qed.

Lemma set_tmp_id w : set_tmp (tmp w) w = w.
Proof. by destruct w. Qed.

Lemma spoken_index_ge i pages k t : (k, t) ∈ spoken i pages -> (i <= k)%nat.
Proof.
  revert i. induction pages as [|[text|msg] rest IH]; intros i; simpl.
  - by intros ?%elem_of_nil.
  - destruct (truthy (strip text)).
    + intros [[= -> ->]|H%IH]%elem_of_cons; lia.
    + intros H%IH. lia.
  - intros H%IH. lia.
Qed.

(** The loop over the pages, on any world whose temporary directory
    holds [t0]: it succeeds exactly when every page can be read and
    every spoken page can be synthesized, and then it has produced one
    fragment per spoken page, in page order. *)
Lemma pages_loop_spec sv d lang pages :
  forall i acc t0,
  exists r t',
    (forall w, tmp w = t0 ->
               pages_loop sv d lang i pages acc w = (r, set_tmp t' w))
    /\ (forall p, (forall k, (i <= k)%nat -> p <> fragment_path d k) ->
                  t' !! p = t0 !! p)
    /\ match r with
       | Ok files =>
           files = (acc ++ ((fun kt => fragment_path d (fst kt))
                              <$> spoken i pages))%list
           /\ (forall k t, (k, t) ∈ spoken i pages ->
                           t' !! fragment_path d k = Some [Speech t lang])
           /\ readable pages
           /\ synthesized sv lang (spoken i pages)
       | Raise e =>
           (exists msg, e = Exception msg)
           /\ ~ (readable pages /\ synthesized sv lang (spoken i pages))
       end.
Proof.
  induction pages as [|pg rest IH]; intros i acc t0.
  - exists (Ok acc), t0. split; [|split].
    + intros w <-. simpl. by rewrite set_tmp_id.
    + done.
    + simpl. rewrite List.app_nil_r. split_and!; try done.
      * by intros k t ?%elem_of_nil.
      * constructor.
      * constructor.
  - destruct pg as [text|msg].
    + destruct (truthy (strip text)) eqn:Htext.
      * destruct (tts_error sv i text lang) as [msg|] eqn:Htts.
        -- exists (Raise (Exception msg)), t0. split; [|split].
           ++ intros w <-. rewrite pages_loop_cons, Htext, Htts.
              by rewrite set_tmp_id.
           ++ done.
           ++ split; [by exists msg|]. intros [_ Hs]. simpl in Hs.
              rewrite Htext in Hs. apply Forall_cons_1 in Hs as [Hs _].
              simpl in Hs. congruence.
        -- destruct (IH (S i) (acc ++ [fragment_path d i])%list
                        (<[fragment_path d i := [Speech text lang]]> t0))
             as (r & t' & Hrun & Hframe & Hr).
           exists r, t'. split; [|split].
           ++ intros w <-. rewrite pages_loop_cons, Htext, Htts.
              by rewrite Hrun.
           ++ intros p Hp. rewrite Hframe.
              ** apply lookup_insert_ne. intros <-. by apply (Hp i).
              ** intros k Hk. apply Hp. lia.
           ++ destruct r as [files|e]; simpl; rewrite Htext.
              ** destruct Hr as (-> & Hst & Hrd & Hsy). split_and!.
                 --- by rewrite <- List.app_assoc.
                 --- intros k t [[= -> ->]|Hin]%elem_of_cons; [|by apply Hst].
                     rewrite Hframe; [apply lookup_insert_eq|].
                     intros k Hk Heq%fragment_path_inj. lia.
                 --- constructor; [by exists text|done].
                 --- by constructor.
              ** destruct Hr as [He Hno]. split; [done|].
                 intros [Hrd Hsy]. apply Hno.
                 apply Forall_cons_1 in Hrd as [_ ?].
                 apply Forall_cons_1 in Hsy as [_ ?]. done.
      * destruct (IH (S i) acc t0) as (r & t' & Hrun & Hframe & Hr).
        exists r, t'. split; [|split].
        -- intros w Hw. rewrite pages_loop_cons, Htext. by apply Hrun.
        -- intros p Hp. apply Hframe. intros k Hk. apply Hp. lia.
        -- destruct r as [files|e]; simpl; rewrite Htext.
           ++ destruct Hr as (-> & Hst & Hrd & Hsy). split_and!; try done.
              constructor; [by exists text|done].
           ++ destruct Hr as [He Hno]. split; [done|].
              intros [Hrd Hsy]. apply Hno.
              by apply Forall_cons_1 in Hrd as [_ ?].
    + exists (Raise (Exception msg)), t0. split; [|split].
      * intros w <-. rewrite pages_loop_cons. by rewrite set_tmp_id.
      * done.
      * split; [by exists msg|]. intros [Hrd _].
        apply Forall_cons_1 in Hrd as [[t [=]] _].
Qed.

Lemma combine_loop_cons sv f rest acc w :
  combine_loop sv (f :: rest) acc w
  = match tmp w !! f with
    | None => (Raise (Exception "FileNotFoundError"), w)
    | Some a =>
        match decode_error sv f with
        | Some msg => (Raise (Exception msg), w)
        | None => combine_loop sv rest (acc ++ a)%list w
        end
    end.
Proof.
  cbn [combine_loop]. unfold bind, from_mp3.
  destruct (tmp w !! f); [|done]. by destruct (decode_error sv f).
Qed.

(** The loop over the fragments of the spoken pages [sp], on any world
    whose temporary directory [t0] holds them: it succeeds exactly when
    every fragment can be decoded, and then it returns their clips in
    the order of [sp]. *)
Lemma combine_loop_spec sv d lang sp t0 :
  (forall k t, (k, t) ∈ sp -> t0 !! fragment_path d k = Some [Speech t lang]) ->
  forall acc,
  exists r,
    (forall w, tmp w = t0 ->
       combine_loop sv ((fun kt => fragment_path d (fst kt)) <$> sp) acc w
       = (r, w))
    /\ match r with
       | Ok a => a = (acc ++ speech lang sp)%list /\ decoded sv d sp
       | Raise e => (exists msg, e = Exception msg) /\ ~ decoded sv d sp
       end.
Proof.
  induction sp as [|[k t] sp IH]; intros Hst acc.
  - exists (Ok acc). split; [done|]. simpl. rewrite List.app_nil_r.
    split; [done|constructor].
  - destruct (decode_error sv (fragment_path d k)) as [msg|] eqn:Hdec.
    + exists (Raise (Exception msg)). split.
      * intros w <-. rewrite fmap_cons, combine_loop_cons. simpl.
        rewrite (Hst k t) by apply list_elem_of_here. by rewrite Hdec.
      * split; [by exists msg|]. intros [H _]%Forall_cons_1.
        simpl in H. congruence.
    + destruct (IH (fun k' t' H => Hst k' t' (list_elem_of_further _ _ _ H))
                   (acc ++ [Speech t lang])%list) as (r & Hrun & Hr).
      exists r. split.
      * intros w Hw. rewrite fmap_cons, combine_loop_cons. simpl.
        rewrite Hw, (Hst k t) by apply list_elem_of_here. rewrite Hdec.
        by apply Hrun.
      * destruct r as [a|e].
        -- destruct Hr as [-> Hd]. split; [|by constructor].
           by rewrite <- List.app_assoc.
        -- destruct Hr as [He Hno]. split; [done|].
           by intros [_ ?]%Forall_cons_1.
Qed.

Lemma not_reaches_no_pdf sv lang nin :
  (forall pages, nin <> Some (File (Pdf pages))) ->
  ~ reaches_export sv lang nin.
Proof. intros H (pages & d & Hn & _). by apply (H pages). Qed.

Lemma pdf_to_audio_body_spec sv input_file output_file lang nin odir :
  exists r e,
    body_outcome sv lang output_file nin odir r e
    /\ forall w,
         lookup input_file (fs w) = nin ->
         isdir output_file (fs w) = odir ->
         exists w',
           pdf_to_audio_body sv input_file output_file lang w = (r, w')
           /\ fs w' = apply_effect output_file e (fs w)
           /\ (exists L, log w' = (log w ++ L)%list)
           /\ stdout w' = stdout w /\ calls w' = calls w.
Proof.
  unfold pdf_to_audio_body, bind, logger, PdfReader, with_TemporaryDirectory.
  destruct nin as [[[pages|a|b]|]|].
  2-5: (eexists (Raise (Exception _)), Keep; split;
        [left; split_and!;
           [apply not_reaches_no_pdf; by intros ?|done|right; by eexists]
        |intros w Hin Hdir; simpl; rewrite Hin; eexists;
         split_and!; [done|done|by eexists|done|done]]).
  destruct (tempdir sv) as [d|msg] eqn:Htmp.
  2: { exists (Raise (Exception msg)), Keep. split.
       - left. split_and!; [|done|right; by eexists].
         intros (pages' & d' & _ & Hd & _). congruence.
       - intros w Hin Hdir. simpl. rewrite Hin. eexists.
         split_and!; [done|done|by eexists|done|done]. }
  destruct (pages_loop_spec sv d lang pages 0 [] ∅)
    as (r1 & t1 & Hrun1 & _ & Hr1).
  destruct r1 as [files|e1].
  2: { destruct Hr1 as [[msg ->] Hno].
       exists (Raise (Exception msg)), Keep. split.
       - left. split_and!; [|done|right; by eexists].
         intros (pages' & d' & [= <-] & Hd & Hrd & Hsy & _). by apply Hno.
       - intros w Hin Hdir. simpl. rewrite Hin.
         rewrite Hrun1 by done. eexists.
         split_and!; [done|done|by eexists|done|done]. }
  destruct Hr1 as (-> & Hst & Hrd & Hsy).
  destruct (spoken 0 pages) as [|kt sp] eqn:Hsp.
  { exists (Ok false), Keep. split.
    - left. split_and!; [|done|by left].
      intros (pages' & d' & [= <-] & _ & _ & _ & Hne & _). congruence.
    - intros w Hin Hdir. simpl. rewrite Hin.
      rewrite Hrun1 by done. simpl. eexists.
      split_and!; [done|done| |done|done].
      eexists. simpl. by rewrite <- List.app_assoc. }
  cbn [app] in Hrun1.
  destruct (combine_loop_spec sv d lang (kt :: sp) t1 Hst [])
    as (r2 & Hrun2 & Hr2).
  destruct r2 as [a|e2].
  2: { destruct Hr2 as [[msg ->] Hno].
       exists (Raise (Exception msg)), Keep. split.
       - left. split_and!; [|done|right; by eexists].
         intros (pages' & d' & [= <-] & Hd & _ & _ & _ & Hdec).
         rewrite Htmp in Hd. injection Hd as <-. rewrite Hsp in Hdec. done.
       - intros w Hin Hdir. simpl. rewrite Hin.
         rewrite Hrun1 by done. change (nonempty _) with true.
         cbv beta iota. rewrite Hrun2 by done. eexists.
         split_and!; [done|done|by eexists|done|done]. }
  destruct Hr2 as [-> Hdec].
  assert (Hreach : reaches_export sv lang (Some (File (Pdf pages)))).
  { exists pages, d. rewrite Hsp. split_and!; done. }
  unfold export.
  destruct odir.
  { exists (Raise (Exception "IsADirectoryError")), Keep. split.
    - right. exists pages. split_and!; [done|done|done|by eexists].
    - intros w Hin Hdir. simpl. rewrite Hin.
      rewrite Hrun1 by done. change (nonempty _) with true. cbv beta iota.
      rewrite Hrun2 by done. simpl.
      rewrite Hdir. eexists.
      split_and!; [done|done|by eexists|done|done]. }
  destruct (export_outcome sv output_file) as [|msg|msg] eqn:Hexp.
  - exists (Ok true), (Put (File (Mp3 (speech lang (kt :: sp))))). split.
    + right. exists pages. rewrite Hexp, Hsp. split_and!; done.
    + intros w Hin Hdir. simpl. rewrite Hin.
      rewrite Hrun1 by done. change (nonempty _) with true. cbv beta iota.
      rewrite Hrun2 by done. simpl.
      rewrite Hdir, ?Hexp. simpl. eexists.
      split_and!; [done|done| |done|done].
      eexists. simpl. by rewrite <- List.app_assoc.
  - exists (Raise (Exception msg)), Keep. split.
    + right. exists pages. rewrite Hexp. split_and!; done.
    + intros w Hin Hdir. simpl. rewrite Hin.
      rewrite Hrun1 by done. change (nonempty _) with true. cbv beta iota.
      rewrite Hrun2 by done. simpl.
      rewrite Hdir, ?Hexp. eexists.
      split_and!; [done|done|by eexists|done|done].
  - exists (Raise (Exception msg)), (Put (File (Bytes ""))). split.
    + right. exists pages. rewrite Hexp. split_and!; done.
    + intros w Hin Hdir. simpl. rewrite Hin.
      rewrite Hrun1 by done. change (nonempty _) with true. cbv beta iota.
      rewrite Hrun2 by done. simpl.
      rewrite Hdir, ?Hexp. eexists.
      split_and!; [done|done|by eexists|done|done].
Qed.

Lemma pdf_to_audio_unfold sv input_file output_file lang w :
  pdf_to_audio sv input_file output_file lang w
  = match pdf_to_audio_body sv input_file output_file lang
            (snd (record_call (input_file, output_file, lang) w)) with
    | (Raise (Exception msg), w') =>
        (Ok false,
         World (fs w') (tmp w')
               (log w' ++ [(ERROR, "Error processing " +:+ input_file
                                   +:+ ": " +:+ msg)])
               (stdout w') (calls w'))
    | r => r
    end.
Proof.
  unfold pdf_to_audio, bind, record_call, try_except. cbv beta iota.
  destruct (pdf_to_audio_body _ _ _ _ _) as [[b|[msg|c]] w']; done.
Qed.

(** [pdf_to_audio] on any world in which the input has node [nin] and
    the destination is a directory or not: it returns a boolean, and
    boolean and effect are those of [convert_outcome]. *)
Lemma pdf_to_audio_spec sv input_file output_file lang nin odir :
  exists b e,
    convert_outcome sv lang output_file nin odir b e
    /\ forall w,
         lookup input_file (fs w) = nin ->
         isdir output_file (fs w) = odir ->
         exists w',
           pdf_to_audio sv input_file output_file lang w = (Ok b, w')
           /\ fs w' = apply_effect output_file e (fs w)
           /\ (exists L, log w' = (log w ++ L)%list)
           /\ stdout w' = stdout w
           /\ calls w' = (calls w ++ [(input_file, output_file, lang)])%list.
Proof.
  destruct (pdf_to_audio_body_spec sv input_file output_file lang nin odir)
    as (r & e & Hout & Hrun).
  assert (Hb : exists b, convert_outcome sv lang output_file nin odir b e
               /\ (r = Ok b \/ (b = false /\ exists msg, r = Raise (Exception msg)))).
  { destruct Hout as [(Hno & -> & [->|[msg ->]])|(pages & Hn & Hreach & Hcase)].
    - exists false. split; [by left|by left].
    - exists false. split; [by left|]. right. split; [done|by eexists].
    - destruct odir.
      + destruct Hcase as [-> [msg ->]]. exists false. split.
        * right. by exists pages.
        * right. split; [done|by eexists].
      + destruct (export_outcome sv output_file) as [|msg|msg] eqn:Hexp.
        * destruct Hcase as [-> ->]. exists true. split; [|by left].
          right. exists pages. by rewrite Hexp.
        * destruct Hcase as [-> ->]. exists false. split.
          -- right. exists pages. by rewrite Hexp.
          -- right. split; [done|by eexists].
        * destruct Hcase as [-> ->]. exists false. split.
          -- right. exists pages. by rewrite Hexp.
          -- right. split; [done|by eexists]. }
  destruct Hb as (b & Hconv & Hr). exists b, e. split; [done|].
  intros w Hin Hdir. rewrite pdf_to_audio_unfold.
  destruct (Hrun (snd (record_call (input_file, output_file, lang) w)))
    as (w' & Hbody & Hfs & [L HL] & Hso & Hca); [done..|].
  rewrite Hbody. simpl in Hfs, HL, Hso, Hca.
  destruct Hr as [->|[-> [msg ->]]].
  - exists w'. split_and!; [done|done|by exists L|done|done].
  - eexists. split_and!; [done|done| |done|done].
    eexists. simpl. rewrite HL. by rewrite <- List.app_assoc.
Qed.

Lemma spoken_lookup pages :
  forall i k t,
    (k, t) ∈ spoken i pages
    <-> exists j, k = (i + j)%nat /\ pages !! j = Some (Page t)
                  /\ truthy (strip t) = true.
Proof.
  induction pages as [|pg rest IH]; intros i k t.
  - simpl. split; [by intros ?%elem_of_nil|by intros (j & _ & ? & _)].
  - assert (Hrest : (k, t) ∈ spoken (S i) rest
                    <-> exists j, k = (i + S j)%nat
                                  /\ (pg :: rest) !! S j = Some (Page t)
                                  /\ truthy (strip t) = true).
    { rewrite IH. split; intros (j & -> & ? & ?); exists j;
        split_and!; try done; lia. }
    assert (Hsplit : (exists j, k = (i + j)%nat /\ (pg :: rest) !! j = Some (Page t)
                                /\ truthy (strip t) = true)
                     <-> (k = i /\ pg = Page t /\ truthy (strip t) = true)
                         \/ (k, t) ∈ spoken (S i) rest).
    { rewrite Hrest. split.
      - intros ([|j] & -> & Hj & Ht).
        + left. simpl in Hj. injection Hj as ->. split_and!; [lia|done..].
        + right. by exists j.
      - intros [(-> & -> & Ht)|(j & -> & Hj & Ht)].
        + exists 0%nat. split_and!; [lia|done..].
        + by exists (S j). }
    rewrite Hsplit. destruct pg as [text|msg]; simpl.
    + destruct (truthy (strip text)) eqn:Htext.
      * rewrite elem_of_cons. split.
        -- intros [[= -> ->]|?]; [by left|by right].
        -- intros [(-> & [= ->] & _)|?]; [by left|by right].
      * split; [by right|]. intros [(-> & [= ->] & ?)|?]; [congruence|done].
    + split; [by right|]. by intros [(_ & [=] & _)|?].
Qed.

Lemma spoken_sorted pages i : StronglySorted lt (fst <$> spoken i pages).
Proof.
  revert i. induction pages as [|[text|msg] rest IH]; intros i; simpl.
  - constructor.
  - destruct (truthy (strip text)); [|apply IH].
    rewrite fmap_cons. constructor; [apply IH|].
    apply Forall_forall. intros k [[k' t] [-> Hin]]%list_elem_of_fmap.
    apply spoken_index_ge in Hin. simpl. lia.
  - apply IH.
Qed.

Lemma spoken_all pages i :
  Forall (fun pg => exists t, pg = Page t /\ truthy (strip t) = true) pages ->
  length (spoken i pages) = length pages.
Proof.
  intros H. revert i. induction H as [|pg rest (t & -> & Ht) _ IH];
    intros i; simpl; [done|].
  rewrite Ht. simpl. by rewrite IH.
Qed.

Lemma spoken_none pages i :
  Forall (fun pg => exists t, pg = Page t /\ truthy (strip t) = false) pages ->
  spoken i pages = [].
Proof.
  intros H. revert i. induction H as [|pg rest (t & -> & Ht) _ IH];
    intros i; simpl; [done|].
  by rewrite Ht.
Qed.

End ConverterFacts.

(** C1.  The fragments of a document are those of its spoken pages
    [spoken 0 pages]: the pages, and only the pages, whose trimmed text is
    not empty, each once and in ascending page order (as many as pages
    when every page has text).  The page loop, when it completes, has
    written exactly one fragment per spoken page and lists them in that
    order; when the converter returns [True] the destination holds the
    clips of the spoken pages, concatenated in page order; and it does
    return [True] when no collaborator fails and some page is spoken. *)
Theorem pdf_to_audio_one_fragment_per_spoken_page
    (sv : service) (input_file output_file lang : string)
    (pages : list page) :
  (forall k t, (k, t) ∈ spoken 0 pages
               <-> pages !! k = Some (Page t) /\ truthy (strip t) = true)
  /\ StronglySorted lt (fst <$> spoken 0 pages)
  /\ (Forall (fun pg => exists t, pg = Page t /\ truthy (strip t) = true) pages ->
      length (spoken 0 pages) = length pages)
  /\ (forall d w files w',
        pages_loop sv d lang 0 pages [] w = (Ok files, w') ->
        files = (fun kt => fragment_path d (fst kt)) <$> spoken 0 pages
        /\ length files = length (spoken 0 pages)
        /\ forall k t, (k, t) ∈ spoken 0 pages ->
                       tmp w' !! fragment_path d k = Some [Speech t lang])
  /\ (forall w w',
        Store.lookup input_file (fs w) = Some (File (Pdf pages)) ->
        pdf_to_audio sv input_file output_file lang w = (Ok true, w') ->
        Store.lookup output_file (fs w')
        = Some (File (Mp3 (speech lang (spoken 0 pages)))))
  /\ (forall w,
        Store.lookup input_file (fs w) = Some (File (Pdf pages)) ->
        reaches_export sv lang (Some (File (Pdf pages))) ->
        Store.isdir output_file (fs w) = false ->
        export_outcome sv output_file = Encoded ->
        exists w',
          pdf_to_audio sv input_file output_file lang w = (Ok true, w')).
Proof.
  split_and!.
  - intros k t. rewrite ConverterFacts.spoken_lookup. split.
    + by intros (j & -> & ? & ?).
    + intros [? ?]. by exists k.
  - apply ConverterFacts.spoken_sorted.
  - apply ConverterFacts.spoken_all.
  - intros d w files w' Hrun.
    destruct (ConverterFacts.pages_loop_spec sv d lang pages 0 [] (tmp w))
      as (r & t' & Hspec & _ & Hr).
    rewrite Hspec in Hrun by done. injection Hrun as -> <-.
    destruct Hr as (-> & Hst & _). split_and!; [done| |done].
    simpl. by rewrite length_fmap.
  - intros w w' Hin Hrun.
    destruct (ConverterFacts.pdf_to_audio_spec sv input_file output_file lang
                (Some (File (Pdf pages))) (Store.isdir output_file (fs w)))
      as (b & e & Hout & Hspec).
    destruct (Hspec w Hin eq_refl) as (w2 & Hrun2 & Hfs & _).
    rewrite Hrun in Hrun2. injection Hrun2 as <- <-.
    destruct Hout as [(_ & _ & [=])|(pages' & [= <-] & _ & Hcase)].
    destruct (Store.isdir output_file (fs w)); [by destruct Hcase|].
    destruct (export_outcome sv output_file); destruct Hcase as [? ->]; [|done..].
    rewrite Hfs. apply StoreFacts.lookup_write_eq.
  - intros w Hin Hreach Hdir Hexp.
    destruct (ConverterFacts.pdf_to_audio_spec sv input_file output_file lang
                (Some (File (Pdf pages))) false)
      as (b & e & Hout & Hspec).
    destruct (Hspec w Hin Hdir) as (w2 & Hrun2 & _).
    destruct Hout as [(Hno & _)|(pages' & _ & _ & Hcase)]; [done|].
    rewrite Hexp in Hcase. destruct Hcase as [-> _]. by exists w2.
Qed.

(** C2.  [pdf_to_audio] returns a boolean on every input and in every
    world: it never raises.  Whenever the body of its [try] raises, what
    is raised is an [Exception], an error is logged and the result is
    [False]. *)
Theorem pdf_to_audio_never_raises
    (sv : service) (input_file output_file lang : string) (w : world) :
  exists b w',
    pdf_to_audio sv input_file output_file lang w = (Ok b, w')
    /\ forall e w1,
         pdf_to_audio_body sv input_file output_file lang
           (snd (record_call (input_file, output_file, lang) w))
         = (Raise e, w1) ->
         b = false
         /\ exists msg,
              e = Exception msg
              /\ fs w' = fs w1
              /\ log w' = (log w1 ++ [(ERROR, "Error processing "
                                              +:+ input_file +:+ ": "
                                              +:+ msg)])%list.
Proof.
  destruct (ConverterFacts.pdf_to_audio_spec sv input_file output_file lang
              (Store.lookup input_file (fs w))
              (Store.isdir output_file (fs w)))
    as (b & e & _ & Hspec).
  destruct (Hspec w eq_refl eq_refl) as (w' & Hrun & _).
  exists b, w'. split; [done|]. intros e1 w1 Hbody.
  rewrite ConverterFacts.pdf_to_audio_unfold in Hrun.
  rewrite Hbody in Hrun.
  destruct e1 as [msg|code]; [|done].
  injection Hrun as <- <-. split; [done|]. by exists msg.
Qed.

(** C3.  A document without a spoken page (no page at all, or only pages
    whose trimmed text is empty) makes the converter return [False] and
    leaves the store as it was, so no destination file is created.  More
    generally the store is left as it was whenever some step before the
    export fails or finds nothing to say. *)
Theorem pdf_to_audio_failure_before_export_writes_nothing
    (sv : service) (input_file output_file lang : string) (w : world) :
  (forall pages,
     Store.lookup input_file (fs w) = Some (File (Pdf pages)) ->
     Forall (fun pg => exists t, pg = Page t /\ truthy (strip t) = false) pages ->
     exists w',
       pdf_to_audio sv input_file output_file lang w = (Ok false, w')
       /\ fs w' = fs w
       /\ Store.lookup output_file (fs w') = Store.lookup output_file (fs w))
  /\ (~ reaches_export sv lang (Store.lookup input_file (fs w)) ->
      exists w',
        pdf_to_audio sv input_file output_file lang w = (Ok false, w')
        /\ fs w' = fs w).
Proof.
  assert (Hgen : ~ reaches_export sv lang (Store.lookup input_file (fs w)) ->
                 exists w',
                   pdf_to_audio sv input_file output_file lang w = (Ok false, w')
                   /\ fs w' = fs w).
  { intros Hno.
    destruct (ConverterFacts.pdf_to_audio_spec sv input_file output_file lang
                (Store.lookup input_file (fs w))
                (Store.isdir output_file (fs w)))
      as (b & e & Hout & Hspec).
    destruct (Hspec w eq_refl eq_refl) as (w' & Hrun & Hfs & _).
    destruct Hout as [(_ & -> & ->)|(pages & _ & Hreach & _)]; [|done].
    by exists w'. }
  split; [|done].
  intros pages Hin Hblank. destruct Hgen as (w' & Hrun & Hfs).
  - rewrite Hin. intros (pages' & d & [= <-] & _ & _ & _ & Hne & _).
    by rewrite (ConverterFacts.spoken_none _ _ Hblank) in Hne.
  - exists w'. by rewrite Hfs.
Qed.

(** ** The worker pool *)

Module PoolFacts.
Import PyStr PosixPath StrFacts PathFacts Store StoreFacts ConverterFacts.

Lemma pdf_not_mp3 p :
  endswith p ".pdf" = true -> endswith p ".mp3" = true -> False.
Proof.
  intros [q ->]%endswith_inv [q' H]%endswith_inv.
  by apply app_inj_tail in H as [_ [=]].
Qed.

Lemma same_documents_refl s : same_documents s s.
Proof. by intros p. Qed.

Lemma isdir_write p q c s :
  isdir q s = false -> isdir p (write q (File c) s) = isdir p s.
Proof.
  unfold isdir. intros Hq. rewrite lookup_write.
  destruct (decide (q = p)) as [<-|]; [|done].
  by destruct (lookup q s) as [[|]|].
Qed.

(** One conversion, run in a world whose documents are those of [w0]:
    it returns what it returns in [w0], and leaves the documents as
    they are. *)
Lemma process_pdf_step sv inp out lang w0 w :
  endswith inp ".pdf" = true -> endswith out ".mp3" = true ->
  same_documents (fs w0) (fs w) ->
  exists w',
    process_pdf sv (inp, out, lang) w
    = (Ok (converts sv (inp, out, lang) w0), w')
    /\ same_documents (fs w0) (fs w').
Proof.
  intros Hinp Hout Hsame.
  destruct (pdf_to_audio_spec sv inp out lang
              (lookup inp (fs w0)) (isdir out (fs w0)))
    as (b & e & Hconv & Hspec).
  destruct (Hspec w0 eq_refl eq_refl) as (w0' & Hrun0 & _).
  destruct (Hspec w) as (w' & Hrun & Hfs & _);
    [by apply Hsame|by apply Hsame|].
  exists w'. unfold converts, process_pdf. rewrite Hrun0. split; [done|].
  rewrite Hfs. intros p.
  assert (He : e = Keep
               \/ exists c, e = Put (File c) /\ isdir out (fs w0) = false).
  { destruct Hconv as [(_ & -> & _)|(pages & _ & _ & Hcase)]; [by left|].
    destruct (isdir out (fs w0)); [left; by destruct Hcase|].
    destruct (export_outcome sv out); destruct Hcase as [_ ->];
      [right; by eexists|by left|right; by eexists]. }
  destruct He as [->|(c & -> & Hd)]; [apply Hsame|].
  simpl. split.
  - intros Hp. rewrite lookup_write_ne; [by apply Hsame|].
    intros ->. by eapply pdf_not_mp3.
  - rewrite isdir_write; [apply Hsame|].
    destruct (Hsame out) as [_ ->]. done.
Qed.

Lemma pool_run_spec E items w0 :
  Forall item_ok items ->
  forall order done w,
    same_documents (fs w0) (fs w) ->
    exists done' w',
      pool_run E items order done w = (Ok done', w')
      /\ same_documents (fs w0) (fs w')
      /\ forall i,
           (i ∈ order ->
            forall it, items !! i = Some it ->
                       done' !! i = Some (converts (svc E i) it w0))
           /\ (i ∉ order -> done' !! i = done !! i).
Proof.
  intros Hok. induction order as [|k rest IH]; intros done w Hsame.
  - exists done, w. split_and!; [done..|].
    intros i. split; [by intros ?%elem_of_nil|done].
  - simpl. destruct (items !! k) as [[[inp out] lang]|] eqn:Hk.
    + assert (Hit : item_ok (inp, out, lang)).
      { eapply Forall_forall; [exact Hok|]. by eapply list_elem_of_lookup_2. }
      destruct Hit as [Hi Ho]. simpl in Hi, Ho.
      destruct (process_pdf_step (svc E k) inp out lang w0 w Hi Ho Hsame)
        as (w1 & Hrun & Hsame1).
      unfold bind. rewrite Hrun.
      destruct (IH (<[k := converts (svc E k) (inp, out, lang) w0]> done)
                   w1 Hsame1) as (done' & w' & Hrest & Hsame' & Hdone).
      exists done', w'. split_and!; [done..|].
      intros i. split.
      * intros Hin it Hi'. destruct (decide (i ∈ rest)) as [Hr|Hr].
        -- by apply Hdone.
        -- apply elem_of_cons in Hin as [->|?]; [|done].
           rewrite (proj2 (Hdone k) Hr).
           rewrite Hk in Hi'. injection Hi' as <-.
           apply lookup_insert_eq.
      * intros Hnot. apply not_elem_of_cons in Hnot as [Hne Hr].
        rewrite (proj2 (Hdone i) Hr).
        by apply lookup_insert_ne.
    + destruct (IH done w Hsame) as (done' & w' & Hrest & Hsame' & Hdone).
      exists done', w'. split_and!; [done..|].
      intros i. split.
      * intros Hin it Hi'. apply elem_of_cons in Hin as [->|?].
        -- congruence.
        -- by apply Hdone.
      * intros Hnot. apply not_elem_of_cons in Hnot as [Hne Hr].
        by apply Hdone.
Qed.

Lemma imap_next_spec (m : gmap nat bool) (f : nat -> bool) :
  forall n j,
    (forall i, (j <= i < j + n)%nat -> m !! i = Some (f i)) ->
    imap_next m j n = f <$> seq j n.
Proof.
  induction n as [|n IH]; intros j H; simpl; [done|].
  rewrite H by lia. f_equal. apply IH. intros i Hi. apply H. lia.
Qed.

Lemma completion_order_elem E K i : i ∈ completion_order E K <-> (i < K)%nat.
Proof.
  unfold completion_order. rewrite merge_sort_Permutation, elem_of_seq. lia.
Qed.

(** The pool returns, item by item and in the order of the items, what
    the converter returns on each. *)
Lemma pool_imap_spec E jobs items w0 w :
  1 <= jobs -> Forall item_ok items ->
  same_documents (fs w0) (fs w) ->
  exists w',
    pool_imap E jobs items w
    = (Ok (imap (fun i it => converts (svc E i) it w0) items), w').
Proof.
  intros Hjobs Hok Hsame. unfold pool_imap.
  replace (jobs <? 1) with false by (symmetry; apply Z.ltb_ge; lia).
  destruct (pool_run_spec E items w0 Hok
              (completion_order E (length items)) ∅ w Hsame)
    as (done' & w' & Hrun & _ & Hdone).
  unfold bind. rewrite Hrun. exists w'. unfold ret.
  do 2 f_equal.
  - rewrite (imap_next_spec done'
               (fun i => match items !! i with
                         | Some it => converts (svc E i) it w0
                         | None => false
                         end)).
    + apply list_eq. intros i. rewrite list_lookup_fmap, list_lookup_imap.
      destruct (items !! i) as [it|] eqn:Hi; simpl.
      * rewrite lookup_seq_lt by by eapply lookup_lt_Some.
        simpl. by rewrite Hi.
      * rewrite lookup_seq_ge; [done|]. by apply lookup_ge_None.
    + intros i Hi. destruct (lookup_lt_is_Some_2 items i) as [it Hit]; [lia|].
      rewrite Hit. apply Hdone; [|done]. apply completion_order_elem. lia.
Qed.

End PoolFacts.

(** ** [main] *)

Module MainFacts.
Import PyStr PosixPath StrFacts PathFacts Store StoreFacts ConverterFacts
       PoolFacts.

Lemma work_items_ok inF outF lang names :
  Forall item_ok (work_items inF outF lang (select_pdf_files names)).
Proof.
  unfold work_items. apply Forall_forall. intros it Hit.
  apply list_elem_of_In, in_map_iff in Hit as (f & <- & Hf).
  apply filter_In in Hf as [_ Hf]. split; simpl.
  - by apply join_endswith.
  - apply join_endswith, endswith_app.
Qed.

Lemma sum_from results acc :
  fold_left (fun a (b : bool) => a + (if b then 1 else 0)) results acc
  = acc + Z.of_nat (count_true results).
Proof.
  unfold count_true. revert acc.
  induction results as [|b rest IH]; intros acc; simpl; [lia|].
  rewrite IH. destruct b; simpl; lia.
Qed.

Lemma sum_count results : sum results = Z.of_nat (count_true results).
Proof. unfold sum. by rewrite sum_from. Qed.

Lemma select_pdf_files_spec names n :
  n ∈ select_pdf_files names
  <-> n ∈ names /\ exists base, n = base +:+ ".pdf".
Proof.
  unfold select_pdf_files.
  rewrite !list_elem_of_In, filter_In, endswith_iff. done.
Qed.

(** [convert_all] in a world [w]: the pool returns the converter's
    results in the order of the files, and the summary is logged
    last. *)
Lemma convert_all_spec E args inF outF names w :
  1 <= jobs args ->
  exists w',
    convert_all E args inF outF (select_pdf_files names) w = (Ok tt, w')
    /\ last (log w')
       = Some (INFO,
               nl +:+ "Conversion complete. "
               +:+ pretty (sum (imap (fun i it => converts (svc E i) it w)
                                  (work_items inF outF (language args)
                                     (select_pdf_files names))))
               +:+ " out of " +:+ pretty (length (select_pdf_files names))
               +:+ " files converted successfully.").
Proof.
  intros Hjobs. unfold convert_all, bind, logger.
  match goal with
  | |- context [pool_imap E (jobs args) ?items ?w1] =>
      destruct (pool_imap_spec E (jobs args) items w w1 Hjobs
                  (work_items_ok _ _ _ _) (same_documents_refl _))
        as (w' & ->)
  end.
  eexists. split; [done|]. simpl. by rewrite last_snoc.
Qed.

End MainFacts.

(** C4.  With at least one worker, the pool returns one result per work
    item, in the order of the input file list: result [i] is the boolean
    the converter returns on item [i].  The list is the same whatever the
    finishing times of the workers.  The count reported in the summary,
    [sum results], is the number of items on which the converter returns
    [True]. *)
Theorem pool_results_follow_input_order
    (E : env) (args : arguments) (input_folder output_folder : string)
    (names : list string) (w : world) :
  1 <= jobs args ->
  exists results wp w',
    pool_imap E (jobs args)
      (work_items input_folder output_folder (language args)
         (select_pdf_files names)) w
    = (Ok results, wp)
    /\ length results = length (select_pdf_files names)
    /\ (forall i filename,
          select_pdf_files names !! i = Some filename ->
          results !! i
          = Some (converts (svc E i)
                    (join input_folder filename,
                     join output_folder (fst (splitext filename) +:+ ".mp3"),
                     language args) w))
    /\ (forall finish_time',
          exists wp',
            pool_imap (with_conversions E (svc E) finish_time') (jobs args)
              (work_items input_folder output_folder (language args)
                 (select_pdf_files names)) w
            = (Ok results, wp'))
    /\ sum results = Z.of_nat (count_true results)
    /\ convert_all E args input_folder output_folder
         (select_pdf_files names) w = (Ok tt, w')
    /\ last (log w')
       = Some (INFO,
               nl +:+ "Conversion complete. "
               +:+ pretty (Z.of_nat (count_true results))
               +:+ " out of " +:+ pretty (length (select_pdf_files names))
               +:+ " files converted successfully.").
Proof.
  intros Hjobs.
  destruct (PoolFacts.pool_imap_spec E (jobs args)
              (work_items input_folder output_folder (language args)
                 (select_pdf_files names)) w w Hjobs
              (MainFacts.work_items_ok _ _ _ _)
              (PoolFacts.same_documents_refl _)) as (wp & Hpool).
  destruct (MainFacts.convert_all_spec E args input_folder output_folder
              names w Hjobs) as (w' & Hall & Hlast).
  eexists _, wp, w'. split_and!; [exact Hpool| | | | |exact Hall|].
  - unfold work_items. by rewrite length_imap, length_map.
  - intros i filename Hi. rewrite list_lookup_imap. unfold work_items.
    rewrite list_lookup_fmap, Hi. done.
  - intros ft'.
    apply (PoolFacts.pool_imap_spec (with_conversions E (svc E) ft')
             (jobs args) _ w w Hjobs (MainFacts.work_items_ok _ _ _ _)
             (PoolFacts.same_documents_refl _)).
  - apply MainFacts.sum_count.
  - by rewrite <- MainFacts.sum_count.
Qed.

(** ** Making directories *)

Module MakedirsFacts.
Import PyStr PosixPath StrFacts Store StoreFacts.

Lemma length_take_drop n s :
  (String.length (take n s) + String.length (drop n s))%nat = String.length s.
Proof.
  revert s. induction n as [|n IH]; intros [|a s]; simpl; try done.
  by rewrite IH.
Qed.

Lemma length_rstrip_char c s :
  (String.length (rstrip_char c s) <= String.length s)%nat.
Proof.
  induction s as [|a s IH]; simpl; [done|].
  destruct (rstrip_char c s) as [|b r]; simpl in *.
  - destruct (Ascii.eqb a c); simpl; lia.
  - lia.
Qed.

Lemma length_split p :
  (String.length (fst (split p)) + String.length (snd (split p))
   <= String.length p)%nat.
Proof.
  unfold split, slice_to, slice_from. simpl.
  pose proof (length_take_drop (Z.to_nat (rfind sep p + 1)) p) as Hl.
  destruct (truthy _ && negb _); [|lia].
  pose proof (length_rstrip_char sep (take (Z.to_nat (rfind sep p + 1)) p)).
  lia.
Qed.

Lemma truthy_length s : truthy s = true -> (0 < String.length s)%nat.
Proof. destruct s; simpl; [done|lia]. Qed.

(** The head [os.makedirs] recurses on is shorter than the path. *)
Lemma head_tail_shorter name :
  truthy (snd (OS.head_tail name)) = true ->
  (String.length (fst (OS.head_tail name)) < String.length name)%nat.
Proof.
  unfold OS.head_tail. pose proof (length_split name) as H1.
  destruct (split name) as [head tail]. simpl in H1.
  destruct (truthy tail) eqn:Ht; cbn [negb fst snd].
  - intros _. apply truthy_length in Ht. lia.
  - pose proof (length_split head) as H2.
    intros Ht2%truthy_length. lia.
Qed.

Lemma made_refl s : made s s.
Proof. intros p. by left. Qed.

Lemma made_trans s1 s2 s3 : made s1 s2 -> made s2 s3 -> made s1 s3.
Proof.
  intros H12 H23 p. destruct (H23 p) as [->|[Hn ->]]; [apply H12|].
  destruct (H12 p) as [<-|[? _]]; right; split; congruence.
Qed.

Lemma made_write name s : lookup name s = None -> made s (write name Dir s).
Proof.
  intros Hn p. rewrite lookup_write.
  destruct (decide (name = p)) as [<-|]; [by right|by left].
Qed.

Lemma mkdir_spec err name w :
  exists r s',
    OS.mkdir err name w = (r, set_fs s' w)
    /\ ((r = Ok tt /\ truthy name = true /\ lookup name (fs w) = None
         /\ s' = write name Dir (fs w))
        \/ ((exists msg, r = Raise (Exception msg)) /\ s' = fs w)).
Proof.
  unfold OS.mkdir. destruct (truthy name) eqn:Ht; simpl.
  2: { eexists _, (fs w). rewrite CleanupFacts.set_fs_id.
       split; [done|]. right. split; [by eexists|done]. }
  destruct (lookup name (fs w)) as [n|] eqn:Hn.
  { eexists _, (fs w). rewrite CleanupFacts.set_fs_id.
    split; [done|]. right. split; [by eexists|done]. }
  destruct (negb _ || _ || _).
  - destruct (err name) as [msg|].
    + eexists _, (fs w). rewrite CleanupFacts.set_fs_id.
      split; [done|]. right. split; [by eexists|done].
    + eexists _, _. split; [done|]. by left.
  - destruct (lookup (fst (OS.head_tail name)) (fs w)); eexists _, (fs w);
      rewrite CleanupFacts.set_fs_id; (split; [done|]); right;
      (split; [by eexists|done]).
Qed.

Lemma makedirs_from_unfold fuel err name w :
  OS.makedirs_from fuel err name w
  = match
      (if truthy (fst (OS.head_tail name)) && truthy (snd (OS.head_tail name))
       then
         match lookup (fst (OS.head_tail name)) (fs w) with
         | Some _ => (Ok tt, w)
         | None =>
             if truthy (fst (OS.head_tail name))
                && all_char sep (fst (OS.head_tail name))
             then (Ok tt, w)
             else match fuel with
                  | O => (Ok tt, w)
                  | S fuel' =>
                      OS.makedirs_from fuel' err (fst (OS.head_tail name)) w
                  end
         end
       else (Ok tt, w))
    with
    | (Ok _, w1) =>
        match OS.mkdir err name w1 with
        | (Raise e, w') =>
            if isdir name (fs w') then (Ok tt, w') else (Raise e, w')
        | r => r
        end
    | (Raise e, w1) => (Raise e, w1)
    end.
Proof.
  destruct fuel; simpl; destruct (OS.head_tail name) as [head tail]; simpl;
    unfold bind, OS.path_exists, when, ret;
    (destruct (truthy head && truthy tail); [|done]);
    (destruct (lookup head (fs w)); [done|]);
    simpl; by destruct (truthy head && all_char sep head).
Qed.

(** What [os.makedirs] does to the store: it raises nothing but an
    [Exception], every path that was there is as before, what is new is
    a directory, and on success the path itself is a directory. *)
Lemma makedirs_from_spec err :
  forall fuel name w,
  exists r s',
    OS.makedirs_from fuel err name w = (r, set_fs s' w)
    /\ (r = Ok tt \/ exists msg, r = Raise (Exception msg))
    /\ made (fs w) s'
    /\ (r = Ok tt -> lookup name s' = Some Dir).
Proof.
  induction fuel as [|fuel IH]; intros name w.
  all: rewrite makedirs_from_unfold.
  all: set (pre := if truthy _ && truthy _ then _ else _).
  all: assert (Hpre : exists r1 s1,
         pre = (r1, set_fs s1 w)
         /\ (r1 = Ok tt \/ exists msg, r1 = Raise (Exception msg))
         /\ made (fs w) s1).
  1, 3: subst pre.
  - destruct (truthy _ && truthy _);
      [|exists (Ok tt), (fs w); rewrite CleanupFacts.set_fs_id;
        split_and!; [done|by left|apply made_refl]].
    destruct (lookup _ (fs w));
      [exists (Ok tt), (fs w); rewrite CleanupFacts.set_fs_id;
       split_and!; [done|by left|apply made_refl]|].
    destruct (truthy _ && all_char _ _);
      exists (Ok tt), (fs w); rewrite CleanupFacts.set_fs_id;
      split_and!; [done|by left|apply made_refl|done|by left|apply made_refl].
  - destruct (truthy _ && truthy _);
      [|exists (Ok tt), (fs w); rewrite CleanupFacts.set_fs_id;
        split_and!; [done|by left|apply made_refl]].
    destruct (lookup _ (fs w));
      [exists (Ok tt), (fs w); rewrite CleanupFacts.set_fs_id;
       split_and!; [done|by left|apply made_refl]|].
    destruct (truthy _ && all_char _ _);
      [exists (Ok tt), (fs w); rewrite CleanupFacts.set_fs_id;
       split_and!; [done|by left|apply made_refl]|].
    destruct (IH (fst (OS.head_tail name)) w) as (r1 & s1 & -> & Hr1 & Hm1 & _).
    by exists r1, s1.
  - destruct Hpre as (r1 & s1 & -> & [->|[msg ->]] & Hm1).
    2: { exists (Raise (Exception msg)), s1.
         split_and!; [done|right; by eexists|done|done]. }
    destruct (mkdir_spec err name (set_fs s1 w))
      as (r & s' & -> & [(-> & _ & Hn & ->)|([msg ->] & ->)]); simpl fs.
    + eexists (Ok tt), _. split_and!; [done|by left| |].
      * eapply made_trans; [exact Hm1|]. by apply made_write.
      * intros _. apply lookup_write_eq.
    + destruct (isdir name s1) eqn:Hd.
      * exists (Ok tt), s1. split_and!; [done|by left|done|].
        intros _. unfold isdir in Hd.
        by destruct (lookup name s1) as [[|]|].
      * exists (Raise (Exception msg)), s1.
        split_and!; [done|right; by eexists|done|done].
  - destruct Hpre as (r1 & s1 & -> & [->|[msg ->]] & Hm1).
    2: { exists (Raise (Exception msg)), s1.
         split_and!; [done|right; by eexists|done|done]. }
    destruct (mkdir_spec err name (set_fs s1 w))
      as (r & s' & -> & [(-> & _ & Hn & ->)|([msg ->] & ->)]); simpl fs.
    + eexists (Ok tt), _. split_and!; [done|by left| |].
      * eapply made_trans; [exact Hm1|]. by apply made_write.
      * intros _. apply lookup_write_eq.
    + destruct (isdir name s1) eqn:Hd.
      * exists (Ok tt), s1. split_and!; [done|by left|done|].
        intros _. unfold isdir in Hd.
        by destruct (lookup name s1) as [[|]|].
      * exists (Raise (Exception msg)), s1.
        split_and!; [done|right; by eexists|done|done].
Qed.

(** [fuel] is enough as soon as it is the length of the path. *)
Lemma makedirs_from_fuel err :
  forall n m name w,
    (String.length name <= n)%nat -> (String.length name <= m)%nat ->
    OS.makedirs_from n err name w = OS.makedirs_from m err name w.
Proof.
  induction n as [|n IH]; intros m name w Hn Hm.
  - destruct name; [|simpl in Hn; lia].
    rewrite !makedirs_from_unfold. by vm_compute (OS.head_tail _).
  - rewrite !(makedirs_from_unfold _ err name).
    destruct (truthy (fst (OS.head_tail name))
              && truthy (snd (OS.head_tail name))) eqn:Hc; [|done].
    apply andb_true_iff in Hc as [_ Ht].
    pose proof (head_tail_shorter name Ht) as Hlt.
    destruct (lookup _ (fs w)); [done|].
    destruct (truthy _ && all_char _ _); [done|].
    destruct m as [|m]; [lia|].
    by rewrite (IH m) by lia.
Qed.

Lemma makedirs_spec E d w :
  exists r s',
    OS.makedirs E d w = (r, set_fs s' w)
    /\ (r = Ok tt \/ exists msg, r = Raise (Exception msg))
    /\ made (fs w) s'
    /\ (r = Ok tt -> truthy d = true /\ lookup d s' = Some Dir).
Proof.
  unfold OS.makedirs. destruct (truthy d) eqn:Ht; simpl.
  - destruct (makedirs_from_spec (makedirs_error E) (String.length d) d w)
      as (r & s' & Hrun & Hr & Hm & Hd).
    exists r, s'. split_and!; [done..|]. intros ?. split; auto.
  - exists (Raise (Exception "FileNotFoundError")), (fs w).
    rewrite CleanupFacts.set_fs_id.
    split_and!; [done|right; by eexists|apply made_refl|done].
Qed.

End MakedirsFacts.

(** ** The two modes of [main] *)

Module DriverFacts.
Import PyStr PosixPath StrFacts PathFacts Store StoreFacts ConverterFacts
       PoolFacts MainFacts.

Lemma single_file_unfold E args f w :
  single_file E args f w
  = if negb (isfile f (fs w)) then
      (Raise (SystemExit 1),
       snd (logger ERROR ("Error: Input file '" +:+ f
                          +:+ "' does not exist.") w))
    else if negb (endswith (lower f) ".pdf") then
      (Raise (SystemExit 1),
       snd (logger ERROR ("Error: Input file '" +:+ f
                          +:+ "' is not a PDF file.") w))
    else
      let output_folder := or_default (output args) "output" in
      let output_file := join output_folder (stem f +:+ ".mp3") in
      match OS.makedirs E output_folder w with
      | (Raise e, w1) => (Raise e, w1)
      | (Ok _, w1) =>
          match pdf_to_audio (svc E 0) f output_file (language args) w1 with
          | (Raise e, w2) => (Raise e, w2)
          | (Ok b, w2) =>
              (Raise (SystemExit 0),
               snd ((if b : bool
                     then logger INFO (nl +:+ "Conversion complete. Audio saved as "
                                       +:+ output_file)
                     else logger ERROR "Conversion failed.") w2))
          end
      end.
Proof.
  unfold single_file, bind, when, OS.isfile, sys_exit, raise, ret, stem.
  destruct (isfile f (fs w)); simpl; [|done].
  destruct (endswith (lower f) ".pdf"); simpl; [|done].
  destruct (OS.makedirs E _ w) as [[[]|e] w1]; [|done].
  destruct (pdf_to_audio _ _ _ _ w1) as [[[|]|e] w2]; done.
Qed.

Lemma main_single E args f w :
  list_languages_flag args = false -> file args = Some f ->
  truthy f = true ->
  main E args w = single_file E args f w.
Proof.
  intros Hl Hf Ht. unfold main, bind, when, given. rewrite Hl, Hf, Ht.
  unfold ret. simpl. rewrite single_file_unfold.
  destruct (negb (isfile f (fs w))); [done|].
  destruct (negb (endswith (lower f) ".pdf")); [done|].
  simpl. destruct (OS.makedirs E _ w) as [[[]|e] w1]; [|done].
  destruct (pdf_to_audio _ _ _ _ w1) as [[b|e] w2]; done.
Qed.

Lemma main_batch E args w :
  list_languages_flag args = false -> given (file args) = false ->
  main E args w = batch E args w.
Proof.
  intros Hl Hg. unfold main, bind, when. rewrite Hl, Hg. unfold ret.
  by destruct (batch E args w) as [[[]|e] w'].
Qed.

Lemma batch_unfold E args w :
  batch E args w
  = match batch_listing E args w with
    | (Raise e, w1) => (Raise e, w1)
    | (Ok names, w1) =>
        if nonempty (select_pdf_files names) then
          convert_all E args (or_default (input args) "input")
            (or_default (output args) "output") (select_pdf_files names) w1
        else
          (Raise (SystemExit 1),
           snd (logger WARNING
                  ("No PDF files found in the '"
                   +:+ or_default (input args) "input"
                   +:+ "' folder. Please add PDF files to begin conversion.")
                  w1))
    end.
Proof.
  unfold batch, batch_listing, bind.
  destruct (OS.makedirs E _ w) as [[[]|e] w1]; [|done].
  destruct (OS.makedirs E _ w1) as [[[]|e] w2]; [|done].
  destruct (when (clean args) _ w2) as [[[]|e] w3]; [|done].
  destruct (OS.listdir E _ w3) as [[names|e] w4]; [|done].
  unfold when. destruct (nonempty (select_pdf_files names)); simpl; [|done].
  unfold ret. by destruct (convert_all _ _ _ _ _ w4) as [[[]|e] w5].
Qed.

Lemma convert_all_exit E args inF outF names w :
  exit_status (fst (convert_all E args inF outF (select_pdf_files names) w))
  = if jobs args <? 1 then 1 else 0.
Proof.
  destruct (Z.ltb_spec (jobs args) 1) as [Hlt|Hge].
  - unfold convert_all, bind, logger, pool_imap.
    replace (jobs args <? 1) with true by (symmetry; by apply Z.ltb_lt).
    done.
  - destruct (convert_all_spec E args inF outF names w Hge) as (w' & -> & _).
    done.
Qed.

Lemma cleanup_loop_env E svc' ft' d files w :
  cleanup_loop (with_conversions E svc' ft') d files w
  = cleanup_loop E d files w.
Proof.
  revert w. induction files as [|n rest IH]; intros w; [done|].
  rewrite !CleanupFacts.cleanup_loop_cons. simpl unlink_error.
  destruct (lookup (join d n) (fs w)) as [[c|]|]; [|apply IH..].
  destruct (unlink_error E (join d n)); [done|apply IH].
Qed.

Lemma cleanup_output_folder_env E svc' ft' d w :
  cleanup_output_folder (with_conversions E svc' ft') d w
  = cleanup_output_folder E d w.
Proof.
  unfold cleanup_output_folder, try_except, bind.
  change (OS.listdir (with_conversions E svc' ft') d w)
    with (OS.listdir E d w).
  destruct (OS.listdir E d w) as [[files|e] w1]; [|done].
  unfold when. destruct (nonempty files); [|done].
  by rewrite cleanup_loop_env.
Qed.

Lemma batch_listing_env E svc' ft' args w :
  batch_listing (with_conversions E svc' ft') args w
  = batch_listing E args w.
Proof.
  unfold batch_listing, bind.
  change (OS.makedirs (with_conversions E svc' ft')) with (OS.makedirs E).
  change (OS.listdir (with_conversions E svc' ft')) with (OS.listdir E).
  destruct (OS.makedirs E _ w) as [[[]|e] w1]; [|done].
  destruct (OS.makedirs E _ w1) as [[[]|e] w2]; [|done].
  unfold when. destruct (clean args); [|done].
  by rewrite cleanup_output_folder_env.
Qed.

(** The exit status of a folder conversion is decided by the listing and
    by the worker count alone. *)
Lemma batch_exit E args w :
  exit_status (fst (batch E args w))
  = match batch_listing E args w with
    | (Raise e, _) => exit_status (Raise e)
    | (Ok names, _) =>
        if nonempty (select_pdf_files names)
        then (if jobs args <? 1 then 1 else 0)
        else 1
    end.
Proof.
  rewrite batch_unfold.
  destruct (batch_listing E args w) as [[names|e] w1]; [|done].
  destruct (nonempty (select_pdf_files names)); [|done].
  apply convert_all_exit.
Qed.

Lemma run_exit E args w : fst (run E args w) = exit_status (fst (main E args w)).
Proof. unfold run. by destruct (main E args w). Qed.

(** A name that ends in a variant of [.pdf] other than [.pdf] itself is
    not selected. *)
Lemma variant_not_selected names base ext :
  lower ext = ".pdf" -> ext <> ".pdf" -> base +:+ ext ∉ select_pdf_files names.
Proof.
  intros Hlow Hne [_ [b Hb]]%select_pdf_files_spec.
  apply app_inj_tail in Hb as [_ ?]; [done|].
  by rewrite <- (lower_length ext), Hlow.
Qed.






Lemma makedirs_frame E d w w1 :
  OS.makedirs E d w = (Ok tt, w1) ->
  calls w1 = calls w /\ log w1 = log w.
Proof.
  destruct (MakedirsFacts.makedirs_spec E d w) as (r & s' & -> & _).
  by intros [= _ <-].
Qed.

End DriverFacts.


(** C6.  In folder mode (the list option is off and no path is given):
    the selected files are exactly the listed names that end with [.pdf],
    letter for letter, so a name ending in another case variant of it is
    not selected; they are taken from the listing of the input folder.
    When none is selected the process exits with status 1 and converts
    nothing.  Otherwise the conversion of the selected files decides the
    run, and its exit status is 0 with at least one worker (1 with
    none): it does not depend on what the conversions return, as it is
    the same with any other collaborators for the conversions. *)
Theorem batch_mode_selection_and_exit_status
    (E : env) (args : arguments) (w : world) :
  list_languages_flag args = false ->
  given (file args) = false ->
  (forall names n,
     n ∈ select_pdf_files names
     <-> n ∈ names /\ exists base, n = base +:+ ".pdf")
  /\ (forall names base ext,
        lower ext = ".pdf" -> ext <> ".pdf" ->
        base +:+ ext ∉ select_pdf_files names)
  /\ (forall names w1,
        batch_listing E args w = (Ok names, w1) ->
        names = Store.entries (or_default (input args) "input") (fs w1)
        /\ (select_pdf_files names = [] ->
            exists w', run E args w = (1, w')
                       /\ fs w' = fs w1 /\ calls w' = calls w1)
        /\ (select_pdf_files names <> [] ->
            main E args w
            = convert_all E args (or_default (input args) "input")
                (or_default (output args) "output")
                (select_pdf_files names) w1
            /\ fst (run E args w) = if jobs args <? 1 then 1 else 0))
  /\ (forall svc' finish_time',
        fst (run (with_conversions E svc' finish_time') args w)
        = fst (run E args w)).
Proof.
  intros Hl Hg. split_and!.
  - apply MainFacts.select_pdf_files_spec.
  - apply DriverFacts.variant_not_selected.
  - intros names w1 Hlist. split_and!.
    + revert Hlist. unfold batch_listing, bind.
      destruct (OS.makedirs E _ w) as [[[]|e] w2]; [|done].
      destruct (OS.makedirs E _ w2) as [[[]|e] w3]; [|done].
      destruct (when (clean args) _ w3) as [[[]|e] w4]; [|done].
      unfold OS.listdir. destruct (negb (truthy _)); [done|].
      destruct (Store.lookup _ (fs w4)) as [[c|]|]; [done| |done].
      destruct (listdir_error E _); [done|]. by intros [= <- <-].
    + intros Hnone. unfold run.
      rewrite (DriverFacts.main_batch E args w Hl Hg),
        DriverFacts.batch_unfold, Hlist, Hnone.
      simpl. by eexists.
    + intros Hsome.
      assert (Hne : nonempty (select_pdf_files names) = true)
        by by destruct (select_pdf_files names).
      split.
      * by rewrite (DriverFacts.main_batch E args w Hl Hg),
          DriverFacts.batch_unfold, Hlist, Hne.
      * rewrite DriverFacts.run_exit,
          (DriverFacts.main_batch E args w Hl Hg), DriverFacts.batch_exit.
        by rewrite Hlist, Hne.
  - intros svc' ft'.
    rewrite !DriverFacts.run_exit, !DriverFacts.main_batch by done.
    by rewrite !DriverFacts.batch_exit, DriverFacts.batch_listing_env.
Qed.


(** ** The theorems on the sample run *)

Lemma pdf_to_audio_one_fragment_per_spoken_page_witness :
  exists w',
    pdf_to_audio Demo.sv "input/a.pdf" "output/a.mp3" "en" Demo.w
    = (Ok true, w')
    /\ Store.lookup "output/a.mp3" (fs w')
       = Some (File (Mp3 [Speech "hello" "en"; Speech "world" "en"])).
Proof.
  destruct (pdf_to_audio_one_fragment_per_spoken_page
              Demo.sv "input/a.pdf" "output/a.mp3" "en" Demo.pages)
    as (_ & _ & _ & _ & Hres & Hprog).
  destruct (Hprog Demo.w) as [w' Hw'].
  - reflexivity.
  - exists Demo.pages, "/tmp/tmpq".
    split_and!; [reflexivity|reflexivity| | |discriminate|].
    + repeat constructor; by eexists.
    + repeat constructor.
    + repeat constructor.
  - reflexivity.
  - reflexivity.
  - exists w'. split; [exact Hw'|]. exact (Hres Demo.w w' eq_refl Hw').
Defined.

Lemma pdf_to_audio_never_raises_witness :
  exists w',
    pdf_to_audio Demo.sv "nope.pdf" "output/x.mp3" "en" Demo.w
    = (Ok false, w').
Proof.
  destruct (pdf_to_audio_never_raises
              Demo.sv "nope.pdf" "output/x.mp3" "en" Demo.w)
    as (b & w' & Hrun & Hraise).
  eassert (Hbody : pdf_to_audio_body Demo.sv "nope.pdf" "output/x.mp3" "en"
                     (snd (record_call ("nope.pdf", "output/x.mp3", "en")
                             Demo.w)) = (Raise _, _))
    by (vm_compute; reflexivity).
  destruct (Hraise _ _ Hbody) as [Hb _]. exists w'. rewrite Hb in Hrun. exact Hrun.
Defined.

Lemma pdf_to_audio_failure_before_export_writes_nothing_witness :
  exists w',
    pdf_to_audio Demo.sv "input/b.pdf" "output/b.mp3" "en" Demo.w
    = (Ok false, w')
    /\ fs w' = fs Demo.w
    /\ Store.lookup "output/b.mp3" (fs w') = None.
Proof.
  destruct (pdf_to_audio_failure_before_export_writes_nothing
              Demo.sv "input/b.pdf" "output/b.mp3" "en" Demo.w) as [H _].
  destruct (H [] eq_refl ltac:(constructor)) as (w' & Hrun & Hfs & Hl).
  exists w'. split_and!; [exact Hrun|exact Hfs|].
  rewrite Hl. reflexivity.
Defined.

Lemma pool_results_follow_input_order_witness :
  1 <= jobs Demo.args_batch
  /\ exists w',
       convert_all Demo.E Demo.args_batch "input" "output"
         ["a.pdf"; "b.pdf"] Demo.w = (Ok tt, w')
       /\ last (log w')
          = Some (INFO,
                  nl +:+ "Conversion complete. 1 out of 2 files converted successfully.").
Proof.
  assert (Hjobs : 1 <= jobs Demo.args_batch) by (simpl; lia).
  split; [exact Hjobs|].
  destruct (pool_results_follow_input_order Demo.E Demo.args_batch
              "input" "output" ["a.pdf"; "notes.txt"; "b.pdf"] Demo.w Hjobs)
    as (results & wp & w' & Hpool & _ & _ & _ & _ & Hall & Hlast).
  vm_compute in Hpool. injection Hpool as <- _.
  exists w'. split; [exact Hall|exact Hlast].
Defined.



Lemma batch_mode_selection_and_exit_status_witness :
  fst (run Demo.E Demo.args_batch Demo.w) = 0.
Proof.
  destruct (batch_mode_selection_and_exit_status Demo.E Demo.args_batch
              Demo.w eq_refl eq_refl) as (_ & _ & H & _).
  eassert (Hlist : batch_listing Demo.E Demo.args_batch Demo.w = (Ok _, _))
    by (vm_compute; reflexivity).
  destruct (H _ _ Hlist) as (_ & _ & Hsome).
  destruct Hsome as [_ Hexit]; [discriminate|]. exact Hexit.
Defined.

Lemma cleanup_output_folder_deletes_direct_files_witness :
  exists w',
    cleanup_output_folder Demo.E "output" Demo.w = (Ok tt, w')
    /\ Store.lookup "output/old.mp3" (fs w') = None
    /\ Store.isdir "output/sub" (fs w') = true
    /\ Store.lookup "output/sub/k" (fs w') = Some (File (Bytes "z")).
Proof.
  destruct (cleanup_output_folder_deletes_direct_files Demo.E "output" Demo.w)
    as (w' & Hrun & _ & Hdir & Hnested & Hdel).
  exists w'. split_and!.
  - exact Hrun.
  - apply Hdel; [reflexivity|reflexivity|reflexivity| | |reflexivity].
    + intros p. reflexivity.
    + exists "old.mp3". reflexivity.
  - apply Hdir. reflexivity.
  - rewrite Hnested; reflexivity.
Defined.

Lemma cleanup_output_folder_abandons_after_failure_witness :
  exists w',
    cleanup_output_folder Demo.E_denied "output" Demo.w_locked = (Ok tt, w')
    /\ Store.lookup "output/old.mp3" (fs w') = Some (File (Bytes "z"))
    /\ Store.lookup "output/new.mp3" (fs w') = Some (File (Bytes "y")).
Proof.
  destruct (cleanup_output_folder_abandons_after_failure
              Demo.E_denied "output" Demo.w_locked
              [] "old.mp3" ["new.mp3"] "PermissionError")
    as (w' & Hrun & _ & Hn & Hpost);
    [reflexivity|reflexivity|reflexivity|reflexivity
    |by intros m ?%elem_of_nil|reflexivity|reflexivity|].
  exists w'. split_and!.
  - exact Hrun.
  - exact (eq_trans Hn eq_refl).
  - refine (eq_trans (Hpost "new.mp3" _ _) eq_refl).
    + apply list_elem_of_here.
    + by intros ?%elem_of_nil.
Defined.


(** * Further properties of the program *)

(** ** The language catalogue *)

Module CatalogueFacts.
Import PyStr StrFacts.

Lemma length_app s t :
  String.length (s +:+ t) = (String.length s + String.length t)%nat.
Proof.
  by rewrite <- !chars_length, chars_app, List.length_app.
Qed.

Lemma length_repeat_space n : String.length (repeat_string n " ") = n.
Proof.
  induction n as [|n IH]; simpl; [done|]. by rewrite length_app, IH.
Qed.

Lemma length_ljust n s :
  String.length (ljust n s) = Nat.max n (String.length s).
Proof. unfold ljust. rewrite length_app, length_repeat_space. lia. Qed.

Lemma print_languages_run l w :
  print_languages l w
  = (Ok tt,
     World (fs w) (tmp w) (log w)
           (stdout w ++ map (fun cn => fmt (fst cn) (snd cn)) l) (calls w)).
Proof.
  revert w. induction l as [|[code name] l IH]; intros w.
  - simpl. rewrite List.app_nil_r. by destruct w.
  - cbn [print_languages]. unfold bind, print. rewrite IH. simpl.
    by rewrite <- List.app_assoc.
Qed.

End CatalogueFacts.

(** X1.  [list_languages] always returns normally and touches neither the
    store nor the trace of conversions.  When the catalogue is fetched it
    prints a header of three lines and then one line per language, in the
    order of the catalogue, and logs nothing; when the fetch fails it
    prints nothing and logs one error. *)
Theorem list_languages_prints_catalogue (E : env) (w : world) :
  exists w',
    list_languages E w = (Ok tt, w')
    /\ fs w' = fs w /\ calls w' = calls w
    /\ match languages E with
       | Returns l =>
           stdout w'
           = (stdout w
              ++ [nl +:+ "Available languages:";
                  fmt "Code" "Language";
                  repeat_string 40 "-"]
              ++ map (fun cn => fmt (fst cn) (snd cn)) l)%list
           /\ log w' = log w
       | Fails msg =>
           stdout w' = stdout w
           /\ log w'
              = (log w ++ [(ERROR, "Error listing languages: " +:+ msg)])%list
       end.
Proof.
  unfold list_languages, try_except, bind, tts_langs.
  destruct (languages E) as [l|msg].
  - unfold ret, print. cbv beta iota.
    rewrite CatalogueFacts.print_languages_run. eexists.
    split_and!; [done|done|done| |done].
    simpl. by rewrite <- !List.app_assoc.
  - unfold raise, logger. eexists. split_and!; done.
Qed.

(** X2.  A row of the table: the code is never cut, it is padded with
    spaces to ten columns, and the name follows one space later, itself
    padded to thirty columns.  For a code of at most ten characters the
    name therefore starts in the same column on every row, and a row of a
    code and a name within their widths is 41 characters wide, one more
    than the rule of 40 dashes printed under the header. *)
Theorem fmt_row_layout (code name : string) :
  (String.length code <= 10)%nat ->
  PyStr.take (String.length code) (fmt code name) = code
  /\ PyStr.drop 11 (fmt code name) = ljust 30 name
  /\ String.length (fmt code name)
     = (11 + Nat.max 30 (String.length name))%nat
  /\ ((String.length name <= 30)%nat ->
      String.length (fmt code name)
      = S (String.length (repeat_string 40 "-"))).
Proof.
  intros Hc. unfold fmt.
  assert (Hl : String.length (ljust 10 code +:+ " ") = 11%nat).
  { rewrite CatalogueFacts.length_app, CatalogueFacts.length_ljust.
    simpl. lia. }
  split_and!.
  - unfold ljust. rewrite StrFacts.app_assoc.
    apply StrFacts.take_app_length.
  - rewrite <- StrFacts.app_assoc, <- Hl. apply StrFacts.drop_app_length.
  - rewrite <- StrFacts.app_assoc, CatalogueFacts.length_app, Hl.
    by rewrite CatalogueFacts.length_ljust.
  - intros Hn.
    rewrite <- StrFacts.app_assoc, CatalogueFacts.length_app, Hl.
    rewrite CatalogueFacts.length_ljust. simpl. lia.
Qed.

Lemma fmt_row_layout_witness :
  PyStr.drop 11 (fmt "en" "English") = ljust 30 "English"
  /\ String.length (fmt "en" "English") = 41%nat.
Proof.
  destruct (fmt_row_layout "en" "English") as (_ & Hd & Hl & _).
  - simpl. lia.
  - split; [exact Hd|exact Hl].
Defined.

(** X3.  With the list option the process prints the catalogue and exits
    with status 0 whatever else is on the command line: no folder is
    made, nothing is cleaned, and no document is converted.  The status
    is 0 even when the catalogue cannot be fetched. *)
Theorem main_list_languages_exits_0
    (E : env) (args : arguments) (w : world) :
  list_languages_flag args = true ->
  exists w',
    run E args w = (0, w')
    /\ list_languages E w = (Ok tt, w')
    /\ fs w' = fs w /\ calls w' = calls w.
Proof.
  intros Hl.
  assert (H : exists w', list_languages E w = (Ok tt, w')
                         /\ fs w' = fs w /\ calls w' = calls w).
  { unfold list_languages, try_except, bind, tts_langs.
    destruct (languages E) as [l|msg].
    - unfold ret, print. cbv beta iota.
      rewrite CatalogueFacts.print_languages_run. by eexists.
    - unfold raise, logger. by eexists. }
  destruct H as (w' & Hrun & Hfs & Hcalls).
  exists w'. split_and!; [|done..].
  unfold run, main, bind, when. rewrite Hl.
  unfold bind. rewrite Hrun. done.
Qed.

Lemma main_list_languages_exits_0_witness :
  exists w',
    run Demo.E (Args None (Some "input/zz.pdf") None "en" true true 0)
        Demo.w = (0, w')
    /\ fs w' = fs Demo.w.
Proof.
  destruct (main_list_languages_exits_0 Demo.E
              (Args None (Some "input/zz.pdf") None "en" true true 0)
              Demo.w eq_refl) as (w' & Hrun & _ & Hfs & _).
  exists w'. split; [exact Hrun|exact Hfs].
Defined.

(** ** Edge cases of the command line *)

(** X4.  An empty argument counts as absent.  An empty [--file] does not
    select single-file mode: the run is the folder conversion, as if the
    option were not given.  An empty [--input] or [--output] stands for
    the default folder. *)
Theorem main_empty_option_is_absent
    (E : env) (i o : option string) (lang : string) (c ll : bool) (j : Z)
    (w : world) :
  main E (Args i (Some EmptyString) o lang c ll j) w
  = main E (Args i None o lang c ll j) w
  /\ main E (Args (Some EmptyString) None o lang c ll j) w
     = main E (Args (Some "input") None o lang c ll j) w
  /\ main E (Args i None (Some EmptyString) lang c ll j) w
     = main E (Args i None (Some "output") lang c ll j) w
  /\ (ll = false ->
      main E (Args i (Some EmptyString) o lang c ll j) w
      = batch E (Args i None o lang c ll j) w).
Proof.
  split_and!; [reflexivity..|].
  intros ->. by apply (DriverFacts.main_batch E (Args i None o lang c false j)).
Qed.

Lemma main_empty_option_is_absent_witness :
  main Demo.E (Args (Some "input") (Some EmptyString) None "en" true false 4)
       Demo.w
  = batch Demo.E Demo.args_batch Demo.w.
Proof.
  destruct (main_empty_option_is_absent Demo.E (Some "input") None "en"
              true false 4 Demo.w) as (_ & _ & _ & H).
  exact (H eq_refl).
Defined.

(** X5.  In single-file mode the output folder is made after the two
    checks and before the conversion, outside any handler: when it cannot
    be made the process ends with status 1 on the uncaught exception and
    [pdf_to_audio] is not called; nothing is logged, every path that was
    in the store is as before, and what is new in the store is a
    directory (a missing folder above the output folder, made before the
    failure, stays).  The output folder cannot be made when its path is
    an existing regular file. *)
Theorem single_file_output_folder_failure
    (E : env) (args : arguments) (f : string) (w : world) :
  list_languages_flag args = false ->
  file args = Some f ->
  truthy f = true ->
  Store.isfile f (fs w) = true ->
  endswith (lower f) ".pdf" = true ->
  (forall e w1,
     OS.makedirs E (or_default (output args) "output") w = (Raise e, w1) ->
     run E args w = (1, w1)
     /\ calls w1 = calls w /\ log w1 = log w
     /\ (forall p n, Store.lookup p (fs w) = Some n ->
                     Store.lookup p (fs w1) = Some n)
     /\ (forall p, Store.lookup p (fs w) = None ->
                   Store.lookup p (fs w1) = None
                   \/ Store.lookup p (fs w1) = Some Dir)
     /\ exists msg, e = Exception msg)
  /\ (Store.isfile (or_default (output args) "output") (fs w) = true ->
      exists e w1,
        OS.makedirs E (or_default (output args) "output") w = (Raise e, w1)
        /\ run E args w = (1, w1) /\ calls w1 = calls w).
Proof.
  intros Hl Hf Ht Hfile Hpdf.
  assert (Hgen : forall e w1,
    OS.makedirs E (or_default (output args) "output") w = (Raise e, w1) ->
    run E args w = (1, w1)
    /\ calls w1 = calls w /\ log w1 = log w
    /\ (forall p n, Store.lookup p (fs w) = Some n ->
                    Store.lookup p (fs w1) = Some n)
    /\ (forall p, Store.lookup p (fs w) = None ->
                  Store.lookup p (fs w1) = None
                  \/ Store.lookup p (fs w1) = Some Dir)
    /\ exists msg, e = Exception msg).
  { intros e w1 Hmk. unfold run.
    rewrite (DriverFacts.main_single E args f w Hl Hf Ht),
      DriverFacts.single_file_unfold, Hfile, Hpdf.
    cbv zeta. simpl negb. cbv iota. rewrite Hmk.
    destruct (MakedirsFacts.makedirs_spec E (or_default (output args) "output")
                w) as (r & s' & Hrun & Hr & Hm & _).
    rewrite Hrun in Hmk. injection Hmk as -> <-.
    destruct Hr as [|[msg [= ->]]]; [done|].
    split; [done|]. split; [done|]. split; [done|]. simpl fs.
    split; [|split; [|by eexists]].
    - intros p n Hp. destruct (Hm p) as [->|[Hn _]]; congruence.
    - intros p Hp. destruct (Hm p) as [->|[_ ->]]; auto. }
  split; [done|].
  intros Hout. apply StoreFacts.isfile_lookup in Hout as [c Hc].
  destruct (MakedirsFacts.makedirs_spec E (or_default (output args) "output")
              w) as (r & s' & Hrun & Hr & Hm & Hd).
  destruct Hr as [->|[msg ->]].
  - destruct (Hd eq_refl) as [_ Hdir].
    destruct (Hm (or_default (output args) "output")) as [Heq|[Hn _]];
      congruence.
  - exists (Exception msg), (set_fs s' w).
    destruct (Hgen _ _ Hrun) as (Hr1 & Hr2 & _). done.
Qed.

(** A missing folder above the output folder stays when the output
    folder itself cannot be made. *)
Lemma single_file_output_folder_failure_witness :
  exists w1,
    run Demo.E_refused
        (Args None (Some "input/c.PDF") (Some "fresh/out") "en"
              false false 4) Demo.w
    = (1, w1)
    /\ Store.lookup "fresh" (fs w1) = Some Dir
    /\ Store.lookup "fresh/out" (fs w1) = None
    /\ calls w1 = [].
Proof.
  eassert (Hmk : OS.makedirs Demo.E_refused "fresh/out" Demo.w
                 = (Raise (Exception "PermissionError"), _))
    by (vm_compute; reflexivity).
  destruct (single_file_output_folder_failure Demo.E_refused
              (Args None (Some "input/c.PDF") (Some "fresh/out") "en"
                    false false 4)
              "input/c.PDF" Demo.w eq_refl eq_refl eq_refl eq_refl eq_refl)
    as [H _].
  destruct (H _ _ Hmk) as (Hrun & Hcalls & _).
  eexists. split; [exact Hrun|].
  split; [reflexivity|]. split; [reflexivity|exact Hcalls].
Defined.

(** X6.  In folder mode a worker count below one is found out only when
    the pool is made, after the folders are made, the output folder is
    cleaned and the documents are listed: the start of the conversion is
    logged, then the process ends with status 1 on the uncaught
    exception, and no document is converted. *)
Theorem batch_without_workers
    (E : env) (args : arguments) (w : world) (names : list string)
    (w1 : world) :
  list_languages_flag args = false ->
  given (file args) = false ->
  batch_listing E args w = (Ok names, w1) ->
  select_pdf_files names <> [] ->
  jobs args < 1 ->
  exists w',
    run E args w = (1, w')
    /\ fs w' = fs w1 /\ calls w' = calls w1
    /\ log w'
       = (log w1
          ++ [(INFO, "Starting conversion of "
                     +:+ pretty (length (select_pdf_files names))
                     +:+ " PDFs using " +:+ pretty (jobs args)
                     +:+ " parallel jobs")])%list.
Proof.
  intros Hl Hg Hlist Hsome Hjobs. unfold run.
  rewrite (DriverFacts.main_batch E args w Hl Hg),
    DriverFacts.batch_unfold, Hlist.
  replace (nonempty (select_pdf_files names)) with true
    by by destruct (select_pdf_files names).
  unfold convert_all, bind, logger, pool_imap.
  replace (jobs args <? 1) with true by (symmetry; by apply Z.ltb_lt).
  eexists. split_and!; done.
Qed.

Lemma batch_without_workers_witness :
  exists w',
    run Demo.E (Args (Some "input") None None "en" false false 0) Demo.w
    = (1, w')
    /\ calls w' = [].
Proof.
  eassert (Hlist : batch_listing Demo.E
                     (Args (Some "input") None None "en" false false 0)
                     Demo.w = (Ok _, _))
    by (vm_compute; reflexivity).
  destruct (batch_without_workers Demo.E
              (Args (Some "input") None None "en" false false 0)
              Demo.w _ _ eq_refl eq_refl Hlist)
    as (w' & Hrun & _ & Hcalls & _).
  - discriminate.
  - reflexivity.
  - exists w'. split; [exact Hrun|exact Hcalls].
Defined.

(** ** More on the converter *)

Module ConverterMore.
Import PyStr PosixPath StrFacts PathFacts Store StoreFacts ConverterFacts.

(** The last record the body logs tells its result. *)
Lemma body_last_log sv input_file output_file lang w r w' :
  pdf_to_audio_body sv input_file output_file lang w = (r, w') ->
  match r with
  | Ok true =>
      last (log w')
      = Some (DEBUG, "Successfully converted " +:+ input_file +:+ " to "
                     +:+ output_file)
  | Ok false =>
      last (log w')
      = Some (WARNING, "No text content found in " +:+ input_file)
  | Raise _ => True
  end.
Proof.
  unfold pdf_to_audio_body, bind, logger, PdfReader, with_TemporaryDirectory.
  cbv beta iota. simpl fs.
  destruct (lookup input_file (fs w)) as [[[pages|a|b]|]|];
    try (by intros [= <- <-]).
  destruct (tempdir sv) as [d|msg]; [|by intros [= <- <-]].
  destruct (pages_loop sv d lang 0 pages [] _) as [[files|e] w1];
    [|by intros [= <- <-]].
  destruct (nonempty files).
  - destruct (combine_loop sv files [] w1) as [[a|e] w2];
      [|by intros [= <- <-]].
    unfold export. destruct (isdir output_file (fs w2));
      [by intros [= <- <-]|].
    destruct (export_outcome sv output_file); intros [= <- <-]; [|done..].
    simpl. by rewrite last_snoc.
  - intros [= <- <-]. simpl. by rewrite last_snoc.
Qed.

Lemma NoDup_fmap_sorted (f : nat -> string) (l : list nat) :
  (forall i j, f i = f j -> i = j) ->
  StronglySorted lt l -> NoDup (f <$> l).
Proof.
  intros Hinj Hs. induction Hs as [|k l Hs IH Hall].
  - constructor.
  - rewrite fmap_cons. constructor; [|done].
    intros (j & Heq & Hj)%list_elem_of_fmap.
    apply Hinj in Heq as <-.
    eapply Forall_forall in Hall; [|exact Hj]. lia.
Qed.

End ConverterMore.

(** X7.  [pdf_to_audio] touches the store at its destination only: every
    other path, the input document among them, is as before, whatever the
    result.  At the destination it leaves what was there or a regular
    file; a directory at the destination is never replaced, and the
    result is then [False].  It prints nothing and is recorded once in
    the trace. *)
Theorem pdf_to_audio_touches_only_destination
    (sv : service) (input_file output_file lang : string) (w : world) :
  exists b w',
    pdf_to_audio sv input_file output_file lang w = (Ok b, w')
    /\ (forall p, p <> output_file ->
                  Store.lookup p (fs w') = Store.lookup p (fs w))
    /\ (Store.lookup output_file (fs w') = Store.lookup output_file (fs w)
        \/ exists c, Store.lookup output_file (fs w') = Some (File c))
    /\ (Store.isdir output_file (fs w) = true -> b = false /\ fs w' = fs w)
    /\ stdout w' = stdout w
    /\ calls w' = (calls w ++ [(input_file, output_file, lang)])%list.
Proof.
  destruct (ConverterFacts.pdf_to_audio_spec sv input_file output_file lang
              (Store.lookup input_file (fs w))
              (Store.isdir output_file (fs w)))
    as (b & e & Hout & Hspec).
  destruct (Hspec w eq_refl eq_refl) as (w' & Hrun & Hfs & _ & Hso & Hca).
  exists b, w'. split; [done|].
  assert (He : (e = Keep /\ (Store.isdir output_file (fs w) = true -> b = false))
               \/ (exists c, e = Put (File c)
                             /\ Store.isdir output_file (fs w) = false)).
  { destruct Hout as [(_ & -> & ->)|(pages & _ & _ & Hcase)]; [by left|].
    destruct (Store.isdir output_file (fs w)).
    - destruct Hcase as [-> ->]. by left.
    - destruct (export_outcome sv output_file); destruct Hcase as [_ ->].
      + right. by eexists.
      + left. by split.
      + right. by eexists. }
  rewrite Hfs. destruct He as [[-> Hb]|(c & -> & Hd)]; simpl.
  - split_and!; [done|by left|by intros ?; split; auto|done|done].
  - split_and!; [|right; exists c|by rewrite Hd|done|done].
    + intros p Hp. by apply StoreFacts.lookup_write_ne.
    + apply StoreFacts.lookup_write_eq.
Qed.

Lemma pdf_to_audio_touches_only_destination_witness :
  exists w',
    pdf_to_audio Demo.sv "input/a.pdf" "output/sub" "en" Demo.w
    = (Ok false, w')
    /\ fs w' = fs Demo.w.
Proof.
  destruct (pdf_to_audio_touches_only_destination
              Demo.sv "input/a.pdf" "output/sub" "en" Demo.w)
    as (b & w' & Hrun & _ & _ & Hdir & _).
  destruct (Hdir eq_refl) as [Hb Hfs].
  exists w'. rewrite Hb in Hrun. split; [exact Hrun|exact Hfs].
Defined.

(** X8.  The last record [pdf_to_audio] hands to the logger goes with its
    result: after [True] it is the record of the success, at level
    [DEBUG]; after [False] it is the record that the document has no
    text, at level [WARNING], or the record of the exception that was
    caught, at level [ERROR].  Which of these records is shown is decided
    by the threshold of the logger, which the trace [log] does not
    apply. *)
Theorem pdf_to_audio_logs_its_result
    (sv : service) (input_file output_file lang : string) (w : world) :
  exists b w',
    pdf_to_audio sv input_file output_file lang w = (Ok b, w')
    /\ if b
       then last (log w')
            = Some (DEBUG, "Successfully converted " +:+ input_file
                           +:+ " to " +:+ output_file)
       else last (log w')
            = Some (WARNING, "No text content found in " +:+ input_file)
            \/ exists msg,
                 last (log w')
                 = Some (ERROR, "Error processing " +:+ input_file
                                +:+ ": " +:+ msg).
Proof.
  destruct (ConverterFacts.pdf_to_audio_spec sv input_file output_file lang
              (Store.lookup input_file (fs w))
              (Store.isdir output_file (fs w)))
    as (b & e & _ & Hspec).
  destruct (Hspec w eq_refl eq_refl) as (w' & Hrun & _).
  exists b, w'. split; [done|].
  rewrite ConverterFacts.pdf_to_audio_unfold in Hrun.
  destruct (pdf_to_audio_body sv input_file output_file lang _)
    as [r w1] eqn:Hbody.
  apply ConverterMore.body_last_log in Hbody.
  destruct r as [[|]|[msg|code]]; try done.
  - by injection Hrun as <- <-.
  - injection Hrun as <- <-. by left.
  - injection Hrun as <- <-. right. exists msg. simpl. by rewrite last_snoc.
Qed.

(** X9.  The temporary files of a conversion never collide: the file of a
    page is named after its number, two pages have two names, and the
    list of fragments the page loop returns has no duplicate, so no
    fragment is overwritten by a later page or combined twice. *)
Theorem fragments_are_distinct
    (sv : service) (temp_dir lang : string) (pages : list page) :
  (forall i j, fragment_path temp_dir i = fragment_path temp_dir j -> i = j)
  /\ (forall w files w',
        pages_loop sv temp_dir lang 0 pages [] w = (Ok files, w') ->
        NoDup files).
Proof.
  split; [apply ConverterFacts.fragment_path_inj|].
  intros w files w' Hrun.
  destruct (ConverterFacts.pages_loop_spec sv temp_dir lang pages 0 [] (tmp w))
    as (r & t' & Hspec & _ & Hr).
  rewrite Hspec in Hrun by done. injection Hrun as -> _.
  destruct Hr as (-> & _).
  change (NoDup ((fragment_path temp_dir ∘ fst) <$> spoken 0 pages)).
  rewrite (list_fmap_compose fst (fragment_path temp_dir)).
  apply ConverterMore.NoDup_fmap_sorted.
  - apply ConverterFacts.fragment_path_inj.
  - apply ConverterFacts.spoken_sorted.
Qed.

Lemma fragments_are_distinct_witness :
  exists files w',
    pages_loop Demo.sv "/tmp/tmpq" "en" 0 Demo.pages [] Demo.w = (Ok files, w')
    /\ NoDup files.
Proof.
  destruct (fragments_are_distinct Demo.sv "/tmp/tmpq" "en" Demo.pages)
    as [_ H].
  eassert (Hrun : pages_loop Demo.sv "/tmp/tmpq" "en" 0 Demo.pages [] Demo.w
                  = (Ok _, _)) by (vm_compute; reflexivity).
  eexists _, _. split; [exact Hrun|]. exact (H _ _ _ Hrun).
Defined.

(** ** More on the folder conversion *)

Module BatchMore.
Import PyStr PosixPath StrFacts PathFacts Store StoreFacts ConverterFacts
       PoolFacts MainFacts.

Lemma count_true_le results : (count_true results <= length results)%nat.
Proof.
  unfold count_true. induction results as [|[] rest IH]; simpl; lia.
Qed.

Lemma count_true_all results :
  count_true results = length results <-> Forall (fun b => b = true) results.
Proof.
  unfold count_true. induction results as [|b rest IH]; simpl.
  - split; [constructor|done].
  - pose proof (count_true_le rest) as Hle. unfold count_true in Hle.
    destruct b; simpl; rewrite Forall_cons.
    + rewrite <- IH. split; [intros [=]; by split|intros [_ ->]; done].
    + split; [lia|by intros [[=] _]].
Qed.

Lemma count_true_none results :
  count_true results = 0%nat <-> Forall (fun b => b = false) results.
Proof.
  unfold count_true. induction results as [|b rest IH]; simpl.
  - split; [constructor|done].
  - destruct b; simpl; rewrite Forall_cons.
    + split; [done|by intros [[=] _]].
    + rewrite IH. split; [by split|by intros [_ ?]].
Qed.

(** The calls of the pool: one call of the converter per index of the
    completion order that is an index of an item, in that order. *)
Lemma pool_run_calls E items order :
  forall done w,
    exists done' w',
      pool_run E items order done w = (Ok done', w')
      /\ calls w' = (calls w ++ omap (fun k => items !! k) order)%list.
Proof.
  induction order as [|k rest IH]; intros done w.
  - exists done, w. split; [done|]. simpl. by rewrite List.app_nil_r.
  - simpl. destruct (items !! k) as [[[inp out] lang]|] eqn:Hk.
    + destruct (pdf_to_audio_spec (svc E k) inp out lang
                  (lookup inp (fs w)) (isdir out (fs w)))
        as (b & e & _ & Hspec).
      destruct (Hspec w eq_refl eq_refl) as (w1 & Hrun & _ & _ & _ & Hca).
      unfold bind, process_pdf. rewrite Hrun.
      destruct (IH (<[k := b]> done) w1) as (done' & w' & Hrest & Hcalls).
      exists done', w'. split; [done|].
      rewrite Hcalls, Hca. by rewrite <- List.app_assoc.
    + apply IH.
Qed.

Lemma omap_lookup_seq {A} (items pre : list A) :
  omap (fun k => (pre ++ items)%list !! k) (seq (length pre) (length items))
  = items.
Proof.
  revert pre. induction items as [|x items IH]; intros pre; [done|].
  simpl. rewrite lookup_app_r by lia. rewrite Nat.sub_diag. simpl.
  f_equal. specialize (IH (pre ++ [x])%list).
  rewrite <- List.app_assoc, length_app in IH. simpl in IH.
  by rewrite Nat.add_1_r in IH.
Qed.

End BatchMore.

(** X10.  The count of the summary lies between 0 and the number of
    results; it is the number of results exactly when every conversion
    returned [True], and 0 exactly when every one returned [False]. *)
Theorem summary_count_bounds (results : list bool) :
  0 <= sum results <= Z.of_nat (length results)
  /\ (sum results = Z.of_nat (length results)
      <-> Forall (fun b => b = true) results)
  /\ (sum results = 0 <-> Forall (fun b => b = false) results).
Proof.
  rewrite MainFacts.sum_count.
  pose proof (BatchMore.count_true_le results) as Hle.
  split; [|split].
  - lia.
  - rewrite <- BatchMore.count_true_all. lia.
  - rewrite <- BatchMore.count_true_none. lia.
Qed.

(** X11.  With at least one worker the folder conversion calls the
    converter exactly once per selected file: the calls it adds to the
    trace are the work items, each once, in the order in which the
    workers finish.  It returns normally whatever the conversions
    return. *)
Theorem convert_all_converts_each_file_once
    (E : env) (args : arguments) (input_folder output_folder : string)
    (pdf_files : list string) (w : world) :
  1 <= jobs args ->
  exists w' done,
    convert_all E args input_folder output_folder pdf_files w = (Ok tt, w')
    /\ calls w' = (calls w ++ done)%list
    /\ done ≡ₚ work_items input_folder output_folder (language args) pdf_files
    /\ done
       = omap (fun k => work_items input_folder output_folder (language args)
                          pdf_files !! k)
              (completion_order E (length pdf_files)).
Proof.
  intros Hjobs. unfold convert_all, bind, logger, pool_imap.
  replace (jobs args <? 1) with false by (symmetry; apply Z.ltb_ge; lia).
  unfold bind.
  match goal with
  | |- context [pool_run E ?items ?order ?done ?w1] =>
      destruct (BatchMore.pool_run_calls E items order done w1)
        as (done' & w' & -> & Hcalls)
  end.
  unfold ret. eexists _, _. split_and!; [done|exact Hcalls| |].
  - unfold completion_order. rewrite merge_sort_Permutation.
    pose proof (BatchMore.omap_lookup_seq
                  (work_items input_folder output_folder (language args)
                     pdf_files) []) as H.
    simpl in H. by rewrite H.
  - unfold work_items. by rewrite length_map.
Qed.

Lemma convert_all_converts_each_file_once_witness :
  exists w',
    convert_all Demo.E Demo.args_batch "input" "output" ["a.pdf"; "b.pdf"]
      Demo.w = (Ok tt, w')
    /\ calls w' = [("input/b.pdf", "output/b.mp3", "en");
                   ("input/a.pdf", "output/a.mp3", "en")].
Proof.
  destruct (convert_all_converts_each_file_once Demo.E Demo.args_batch
              "input" "output" ["a.pdf"; "b.pdf"] Demo.w)
    as (w' & done & Hrun & Hcalls & _ & Hdone).
  - simpl. lia.
  - exists w'. split; [exact Hrun|]. rewrite Hcalls, Hdone. reflexivity.
Defined.

(** ** More on the cleanup *)

Module CleanupMore.
Import PyStr PosixPath StrFacts PathFacts Store StoreFacts CleanupFacts.

(** The final world of the cleanup: the store [s'] the deletion loop
    leaves and the one record [L] it logs, if any. *)
Lemma cleanup_output_folder_world E d w :
  exists s' L,
    cleanup_output_folder E d w
    = (Ok tt, World s' (tmp w) (log w ++ L) (stdout w) (calls w))
    /\ ((~ listing_ok E d w /\ s' = fs w
         /\ exists msg,
              L = [(ERROR, "Error cleaning up output folder " +:+ d
                           +:+ ": " +:+ msg)])
        \/ (listing_ok E d w
            /\ exists r,
                 cleanup_loop E d (entries d (fs w)) w = (r, set_fs s' w)
                 /\ match r with
                    | Ok _ =>
                        L = if nonempty (entries d (fs w))
                            then [(DEBUG, "Cleaned up output folder: " +:+ d)]
                            else []
                    | Raise e =>
                        exists msg,
                          e = Exception msg
                          /\ L = [(ERROR, "Error cleaning up output folder "
                                          +:+ d +:+ ": " +:+ msg)]
                    end)).
Proof.
  unfold cleanup_output_folder, try_except, bind.
  destruct (listdir_cases E d w) as [[Hok ->]|[msg Hl]].
  - unfold when. destruct (nonempty (entries d (fs w))) eqn:Hne.
    + destruct (cleanup_loop_spec E d (entries d (fs w)) w)
        as (r & s' & Hrun & [->|[msg ->]] & _).
      * rewrite Hrun. eexists s', _. split; [done|]. right. split; [done|].
        exists (Ok tt). split; [done|]. by rewrite ?Hne.
      * rewrite Hrun. eexists s', _. split; [done|]. right. split; [done|].
        exists (Raise (Exception msg)). split; [done|]. by exists msg.
    + exists (fs w), []. split.
      * unfold ret. rewrite List.app_nil_r. by destruct w.
      * right. split; [done|]. exists (Ok tt).
        destruct (entries d (fs w)); [|done].
        simpl. by rewrite set_fs_id.
  - rewrite Hl. eexists (fs w), _. split; [done|]. left.
    split_and!; [|done|by exists msg].
    intros Hok. rewrite (listdir_ok _ _ _ Hok) in Hl. done.
Qed.

(** What the cleanup does to the store, in terms of lookups. *)
Lemma cleanup_output_folder_effect E d w :
  exists w',
    cleanup_output_folder E d w = (Ok tt, w')
    /\ (forall p,
          lookup p (fs w') = lookup p (fs w)
          \/ (is_Some (child_name d p) /\ isfile p (fs w) = true
              /\ lookup p (fs w') = None))
    /\ (listing_ok E d w ->
        (forall p, unlink_error E p = None) ->
        forall p, is_Some (child_name d p) -> isfile p (fs w) = true ->
                  lookup p (fs w') = None).
Proof.
  destruct (cleanup_output_folder_world E d w) as (s' & L & Hrun & Hcase).
  eexists. split; [exact Hrun|]. simpl.
  pose proof (cleanup_loop_spec E d (entries d (fs w)) w)
    as (r' & s2 & Hrun' & _ & Hframe & Hdel).
  destruct Hcase as [(Hno & -> & _)|(Hok & r & Hloop & _)].
  - split; [by left|]. by intros Hok.
  - rewrite Hloop in Hrun'. injection Hrun' as _ ->. split.
    + intros p.
      destruct (Hframe p) as [?|(? & ?%join_entry & ?)]; auto.
    + intros _ Hu p [n Hn] Hf.
      destruct Hdel as [_ Hdel]; [by intros; apply Hu|].
      pose proof (isfile_entry _ _ _ _ Hn Hf) as Hin.
      destruct (child_name_Some _ _ _ Hn) as (-> & _ & _).
      by apply Hdel.
Qed.

End CleanupMore.

(** X12.  A folder that cannot be listed (its name is empty, it does not
    exist, it is a regular file, or the listing is refused) is no error
    for the caller: the cleanup returns normally, leaves the store, the
    output and the trace as they are, and logs exactly one error. *)
Theorem cleanup_of_unlistable_folder
    (E : env) (output_folder : string) (w : world) :
  ~ listing_ok E output_folder w ->
  exists msg,
    cleanup_output_folder E output_folder w
    = (Ok tt,
       World (fs w) (tmp w)
             (log w ++ [(ERROR, "Error cleaning up output folder "
                                +:+ output_folder +:+ ": " +:+ msg)])
             (stdout w) (calls w)).
Proof.
  intros Hno.
  destruct (CleanupMore.cleanup_output_folder_world E output_folder w)
    as (s' & L & Hrun & [(_ & -> & msg & ->)|(Hok & _)]); [|done].
  by exists msg.
Qed.

Lemma cleanup_of_unlistable_folder_witness :
  exists msg,
    cleanup_output_folder Demo.E "nowhere" Demo.w
    = (Ok tt,
       World (fs Demo.w) ∅
             [(ERROR, "Error cleaning up output folder nowhere: " +:+ msg)]
             [] []).
Proof.
  destruct (cleanup_of_unlistable_folder Demo.E "nowhere" Demo.w)
    as [msg Hrun].
  - intros (_ & H & _). discriminate H.
  - exists msg. exact Hrun.
Defined.

(** X13.  When the folder can be listed and no deletion fails, the
    cleanup changes nothing but the store and the log.  It logs the one
    debug record of the cleaning when the folder has an entry, be it only
    a subdirectory it leaves alone; on a folder without entry it logs
    nothing and the world is unchanged. *)
Theorem cleanup_logs_once
    (E : env) (output_folder : string) (w : world) :
  listing_ok E output_folder w ->
  (forall p, unlink_error E p = None) ->
  exists s',
    cleanup_output_folder E output_folder w
    = (Ok tt,
       World s' (tmp w)
             (log w
              ++ if nonempty (Store.entries output_folder (fs w))
                 then [(DEBUG, "Cleaned up output folder: "
                               +:+ output_folder)]
                 else [])
             (stdout w) (calls w))
    /\ (Store.entries output_folder (fs w) = [] ->
        cleanup_output_folder E output_folder w = (Ok tt, w)).
Proof.
  intros Hok Hu.
  destruct (CleanupMore.cleanup_output_folder_world E output_folder w)
    as (s' & L & Hrun & [(Hno & _)|(_ & r & Hloop & HL)]); [done|].
  destruct (CleanupFacts.cleanup_loop_spec E output_folder
              (Store.entries output_folder (fs w)) w)
    as (r' & s2 & Hrun' & _ & _ & Hdel).
  rewrite Hloop in Hrun'. injection Hrun' as -> ->.
  destruct Hdel as [-> _]; [by intros; apply Hu|].
  rewrite HL in Hrun. exists s2. split; [exact Hrun|].
  intros Hnil. rewrite Hnil in Hrun, Hloop. simpl in Hloop.
  injection Hloop as Hs. rewrite Hrun. simpl. rewrite List.app_nil_r.
  apply (f_equal fs) in Hs. simpl in Hs. rewrite <- Hs. by destruct w.
Qed.

Lemma cleanup_logs_once_witness :
  exists s',
    cleanup_output_folder Demo.E "output" Demo.w
    = (Ok tt,
       World s' ∅ [(DEBUG, "Cleaned up output folder: output")] [] []).
Proof.
  destruct (cleanup_logs_once Demo.E "output" Demo.w) as (s' & Hrun & _).
  - split_and!; reflexivity.
  - intros p. reflexivity.
  - exists s'. exact Hrun.
Defined.

(** X14.  Cleaning twice is cleaning once: after a cleanup in which no
    deletion failed, a second cleanup finds no regular file directly in
    the folder and leaves every path as the first one left it. *)
Theorem cleanup_twice
    (E : env) (output_folder : string) (w w1 w2 : world) :
  listing_ok E output_folder w ->
  (forall p, unlink_error E p = None) ->
  cleanup_output_folder E output_folder w = (Ok tt, w1) ->
  cleanup_output_folder E output_folder w1 = (Ok tt, w2) ->
  (forall p, is_Some (Store.child_name output_folder p) ->
             Store.isfile p (fs w1) = false)
  /\ forall p, Store.lookup p (fs w2) = Store.lookup p (fs w1).
Proof.
  intros Hok Hu Hrun1 Hrun2.
  destruct (CleanupMore.cleanup_output_folder_effect E output_folder w)
    as (w1' & Hr1 & Hframe1 & Hdel1).
  rewrite Hrun1 in Hr1. injection Hr1 as <-.
  destruct (CleanupMore.cleanup_output_folder_effect E output_folder w1)
    as (w2' & Hr2 & Hframe2 & _).
  rewrite Hrun2 in Hr2. injection Hr2 as <-.
  assert (Hnone : forall p, is_Some (Store.child_name output_folder p) ->
                            Store.isfile p (fs w1) = false).
  { intros p Hp. destruct (Store.isfile p (fs w)) eqn:Hf.
    - unfold Store.isfile. by rewrite (Hdel1 Hok Hu p Hp Hf).
    - unfold Store.isfile in *.
      destruct (Hframe1 p) as [->|(_ & _ & ->)]; done. }
  split; [done|]. intros p.
  destruct (Hframe2 p) as [?|(Hp & Hf & _)]; [done|].
  by rewrite (Hnone p Hp) in Hf.
Qed.

Lemma cleanup_twice_witness :
  exists w1 w2,
    cleanup_output_folder Demo.E "output" Demo.w = (Ok tt, w1)
    /\ cleanup_output_folder Demo.E "output" w1 = (Ok tt, w2)
    /\ Store.lookup "output/sub/k" (fs w2) = Store.lookup "output/sub/k" (fs w1).
Proof.
  eassert (H1 : cleanup_output_folder Demo.E "output" Demo.w = (Ok tt, _))
    by (vm_compute; reflexivity).
  match type of H1 with
  | _ = (_, ?w1) =>
      eassert (H2 : cleanup_output_folder Demo.E "output" w1 = (Ok tt, _))
        by (vm_compute; reflexivity)
  end.
  eexists _, _. split; [exact H1|]. split; [exact H2|].
  refine (proj2 (cleanup_twice Demo.E "output" Demo.w _ _ _ _ H1 H2) _).
  - split_and!; reflexivity.
  - intros p. reflexivity.
Defined.

(** ** Cleaning the folder the documents are in *)

Module SharedFolder.
Import PyStr PosixPath StrFacts PathFacts Store StoreFacts CleanupFacts
       ConverterFacts.

Lemma makedirs_ok E d w w1 :
  OS.makedirs E d w = (Ok tt, w1) ->
  truthy d = true /\ lookup d (fs w1) = Some Dir.
Proof.
  destruct (MakedirsFacts.makedirs_spec E d w) as (r & s' & -> & _ & _ & Hd).
  intros [= -> <-]. by apply Hd.
Qed.

(** The converter returns [False] on an input that is not a regular
    file. *)
Lemma converts_not_a_file sv inp out lang w :
  isfile inp (fs w) = false -> converts sv (inp, out, lang) w = false.
Proof.
  intros Hf.
  destruct (pdf_to_audio_spec sv inp out lang (lookup inp (fs w))
              (isdir out (fs w))) as (b & e & Hout & Hspec).
  destruct (Hspec w eq_refl eq_refl) as (w' & Hrun & _).
  unfold converts, process_pdf. rewrite Hrun.
  destruct Hout as [(_ & _ & ->)|(pages & Hn & _)]; [done|].
  unfold isfile in Hf. by rewrite Hn in Hf.
Qed.

Lemma makedirs_isfile E d w w1 :
  OS.makedirs E d w = (Ok tt, w1) ->
  forall p, isfile p (fs w1) = isfile p (fs w).
Proof.
  destruct (MakedirsFacts.makedirs_spec E d w) as (r & s' & -> & _ & Hm & _).
  intros [= _ <-] p. unfold isfile. simpl.
  by destruct (Hm p) as [->|[-> ->]].
Qed.

Lemma elem_of_lookup p m s : (p, m) ∈ s -> is_Some (lookup p s).
Proof.
  induction s as [|[q k] s IH]; [by intros ?%elem_of_nil|].
  simpl. intros [[= -> ->]|Hin]%elem_of_cons.
  - rewrite decide_True by done. by eexists.
  - destruct (decide (q = p)); [by eexists|auto].
Qed.

End SharedFolder.

(** X15.  The output folder is cleaned before the input folder is
    listed.  So when both options name the same folder and [--clean] is
    given, the documents are deleted before they are looked for
    (deletions not failing): no regular file of the folder is among the
    listed names, what is listed is no regular file, and the converter
    returns [False] on it. *)
Theorem clean_of_shared_folder_deletes_documents
    (E : env) (args : arguments) (w : world) (names : list string)
    (w1 : world) :
  clean args = true ->
  or_default (input args) "input" = or_default (output args) "output" ->
  listdir_error E (or_default (output args) "output") = None ->
  (forall p, unlink_error E p = None) ->
  batch_listing E args w = (Ok names, w1) ->
  (forall n,
     Store.isfile (join (or_default (output args) "output") n) (fs w) = true ->
     n ∉ names)
  /\ forall n,
       n ∈ names ->
       Store.isfile (join (or_default (output args) "output") n) (fs w1)
       = false
       /\ forall sv out lang,
            converts sv
              (join (or_default (output args) "output") n, out, lang) w1
            = false.
Proof.
  intros Hclean Hsame Hle Hu Hlist.
  revert Hlist. unfold batch_listing, bind. rewrite Hsame, Hclean.
  set (d := or_default (output args) "output") in *.
  destruct (OS.makedirs E d w) as [[[]|e] wa] eqn:Hma; [|done].
  destruct (OS.makedirs E d wa) as [[[]|e] wb] eqn:Hmb; [|done].
  destruct (SharedFolder.makedirs_ok _ _ _ _ Hmb) as [Ht Hd].
  unfold when.
  destruct (CleanupMore.cleanup_output_folder_effect E d wb)
    as (wc & -> & Hframe & Hdel).
  destruct (CleanupFacts.listdir_cases E d wc) as [[_ ->]|[msg ->]]; [|done].
  intros [= <- <-].
  assert (Hgone : forall n, n ∈ Store.entries d (fs wc) ->
                            Store.isfile (join d n) (fs wb) = false
                            /\ Store.isfile (join d n) (fs wc) = false).
  { intros n Hn.
    apply StoreFacts.entries_spec in Hn as (p & m & Hin & Hp).
    destruct (StoreFacts.child_name_Some _ _ _ Hp) as (-> & _ & _).
    apply SharedFolder.elem_of_lookup in Hin as [k Hk].
    destruct (Store.isfile (join d n) (fs wb)) eqn:Hfb.
    - rewrite (Hdel (conj Ht (conj Hd Hle)) Hu) in Hk; [done| |done].
      by exists n.
    - split; [done|]. unfold Store.isfile in *.
      destruct (Hframe (join d n)) as [->|(_ & _ & ->)]; done. }
  split.
  - intros n Hf Hn. destruct (Hgone n Hn) as [Hfb _].
    rewrite (SharedFolder.makedirs_isfile _ _ _ _ Hmb),
      (SharedFolder.makedirs_isfile _ _ _ _ Hma) in Hfb. congruence.
  - intros n Hn. destruct (Hgone n Hn) as [_ Hfc]. split; [done|].
    intros sv out lang. by apply SharedFolder.converts_not_a_file.
Qed.

Lemma clean_of_shared_folder_deletes_documents_witness :
  exists names w1,
    batch_listing Demo.E
      (Args (Some "output") None (Some "output") "en" true false 4) Demo.w
    = (Ok names, w1)
    /\ ("old.mp3" ∉ names)
    /\ converts Demo.sv ("output/sub", "output/sub.mp3", "en") w1 = false.
Proof.
  eassert (Hlist : batch_listing Demo.E
                     (Args (Some "output") None (Some "output") "en" true
                           false 4) Demo.w = (Ok _, _))
    by (vm_compute; reflexivity).
  eexists _, _. split; [exact Hlist|].
  destruct (clean_of_shared_folder_deletes_documents Demo.E
              (Args (Some "output") None (Some "output") "en" true false 4)
              Demo.w _ _ eq_refl eq_refl eq_refl (fun _ => eq_refl) Hlist)
    as [Hgone Hlisted].
  split.
  - apply (Hgone "old.mp3"). reflexivity.
  - destruct (Hlisted "sub") as [_ Hc].
    + apply list_elem_of_here.
    + exact (Hc Demo.sv "output/sub.mp3" "en").
Defined.

(** ** The names of the destinations *)

Module StemFacts.
Import PyStr PosixPath StrFacts PathFacts.

Lemma slice1_cons j a r :
  slice1 (Z.of_nat (S j)) (String a r) = slice1 (Z.of_nat j) r.
Proof. unfold slice1. by rewrite !Nat2Z.id. Qed.

Lemma not_all_dots base s :
  all_dots base = false ->
  exists j, (j < String.length base)%nat
            /\ slice1 (Z.of_nat j) (base +:+ s) <> ".".
Proof.
  induction base as [|a r IH]; simpl; [done|].
  destruct (Ascii.eqb_spec a ".") as [->|Hne]; simpl.
  - intros (j & Hj & Hs)%IH. exists (S j). split; [lia|].
    by rewrite app_cons, slice1_cons.
  - intros _. exists 0%nat. split; [lia|].
    rewrite app_cons. unfold slice1. simpl. destruct (r +:+ s); congruence.
Qed.

Lemma only_dots base s j :
  all_dots base = true -> (j < String.length base)%nat ->
  slice1 (Z.of_nat j) (base +:+ s) = ".".
Proof.
  revert j. induction base as [|a r IH]; intros j; simpl; [lia|].
  destruct (Ascii.eqb_spec a ".") as [->|Hne]; simpl; [|done].
  intros Hr Hj. rewrite app_cons. destruct j as [|j].
  - unfold slice1. simpl. by destruct (r +:+ s).
  - rewrite slice1_cons. apply IH; [done|lia].
Qed.

Lemma scan_finds p d :
  forall n i,
    (exists j, (j < n)%nat /\ slice1 (i + Z.of_nat j) p <> ".") ->
    splitext_scan p d i n = Some (slice_to d p, slice_from d p).
Proof.
  induction n as [|n IH]; intros i (j & Hj & Hs); [lia|].
  simpl. destruct (String.eqb_spec (slice1 i p) ".") as [Heq|Hne]; [|done].
  simpl. apply IH. destruct j as [|j].
  - rewrite Z.add_0_r in Hs. done.
  - exists j. split; [lia|].
    by replace (i + 1 + Z.of_nat j) with (i + Z.of_nat (S j)) by lia.
Qed.

Lemma scan_misses p d :
  forall n i,
    (forall j, (j < n)%nat -> slice1 (i + Z.of_nat j) p = ".") ->
    splitext_scan p d i n = None.
Proof.
  induction n as [|n IH]; intros i H; [done|].
  simpl. pose proof (H 0%nat ltac:(lia)) as H0. rewrite Z.add_0_r in H0.
  rewrite H0. simpl. apply IH. intros j Hj.
  replace (i + 1 + Z.of_nat j) with (i + Z.of_nat (S j)) by lia.
  apply H. lia.
Qed.

(** [os.path.splitext] on a listed name [base.pdf]. *)
Lemma splitext_pdf base :
  contains "/" base = false ->
  fst (splitext (base +:+ ".pdf")) = pdf_stem base.
Proof.
  intros Hb. unfold splitext, pdf_stem, rfind, sep, extsep.
  rewrite rfind_from_absent by (by rewrite contains_app, Hb).
  change ".pdf" with (String "." "pdf").
  rewrite rfind_from_last by done.
  replace (-1 <? 0 + Z.of_nat (String.length base)) with true
    by (symmetry; apply Z.ltb_lt; lia).
  replace (Z.to_nat (0 + Z.of_nat (String.length base) - (-1 + 1)))
    with (String.length base) by lia.
  destruct (all_dots base) eqn:Hd.
  - rewrite scan_misses; [done|]. intros j Hj. by apply only_dots.
  - rewrite scan_finds; [|by apply not_all_dots].
    unfold slice_to. simpl.
    replace (Z.to_nat (0 + Z.of_nat (String.length base)))
      with (String.length base) by lia.
    apply take_app_length.
Qed.

Lemma all_dots_nonempty base : all_dots base = false -> truthy base = true.
Proof. by destruct base. Qed.

End StemFacts.

(** X16.  The destination of an ordinary document [base.pdf] is
    [base.mp3] in the output folder: this holds for the work item of a
    listed name and for a single file given with any directory in front,
    whenever [base] has a character other than a dot.  When [base] is
    made of dots only (as for the name [.pdf]) the whole name is kept and
    the destination is [base.pdf.mp3]. *)
Theorem destination_of_pdf_name
    (input_folder output_folder lang dir base : string) :
  PyStr.contains "/" base = false ->
  work_items input_folder output_folder lang [base +:+ ".pdf"]
  = [(join input_folder (base +:+ ".pdf"),
      join output_folder (pdf_stem base +:+ ".mp3"),
      lang)]
  /\ stem (join dir (base +:+ ".pdf")) = pdf_stem base
  /\ (all_dots base = false -> pdf_stem base = base)
  /\ (all_dots base = true -> pdf_stem base = base +:+ ".pdf").
Proof.
  intros Hb. split_and!.
  - unfold work_items. simpl. by rewrite StemFacts.splitext_pdf.
  - unfold stem. rewrite PathFacts.basename_join.
    + by apply StemFacts.splitext_pdf.
    + by rewrite StrFacts.contains_app, Hb.
  - unfold pdf_stem. by intros ->.
  - unfold pdf_stem. by intros ->.
Qed.

Lemma destination_of_pdf_name_witness :
  work_items "input" "output" "en" ["report.v2.pdf"]
  = [("input/report.v2.pdf", "output/report.v2.mp3", "en")]
  /\ stem "some/where/..pdf" = "..pdf".
Proof.
  split.
  - destruct (destination_of_pdf_name "input" "output" "en" "" "report.v2"
                eq_refl) as (H & _).
    exact H.
  - destruct (destination_of_pdf_name "" "" "" "some/where" "." eq_refl)
      as (_ & H & _).
    exact H.
Defined.

(** X17.  Two ordinary documents of one folder never share a
    destination: for two different names [b1.pdf] and [b2.pdf] whose
    bases are not made of dots only, the destinations differ.  The
    condition on the dots is needed: the names [.pdf] and [.pdf.pdf] are
    both given the destination [.pdf.mp3]. *)
Theorem destinations_do_not_collide
    (input_folder output_folder lang b1 b2 : string) :
  PyStr.contains "/" b1 = false -> PyStr.contains "/" b2 = false ->
  all_dots b1 = false -> all_dots b2 = false ->
  b1 <> b2 ->
  (forall it1 it2,
     work_items input_folder output_folder lang
       [b1 +:+ ".pdf"; b2 +:+ ".pdf"] = [it1; it2] ->
     snd (fst it1) <> snd (fst it2))
  /\ (forall it1 it2,
        work_items input_folder output_folder lang [".pdf"; ".pdf.pdf"]
        = [it1; it2] ->
        snd (fst it1) = snd (fst it2)).
Proof.
  intros H1 H2 Hd1 Hd2 Hne. split.
  - intros it1 it2. unfold work_items. simpl.
    rewrite !StemFacts.splitext_pdf by done.
    unfold pdf_stem. rewrite Hd1, Hd2.
    intros [= <- <-]. simpl. intros Heq. apply Hne.
    apply PathFacts.join_inj in Heq.
    + by apply StrFacts.app_inv_tail in Heq.
    + apply StrFacts.contains_startswith.
      by rewrite StrFacts.contains_app, H1.
    + apply StrFacts.contains_startswith.
      by rewrite StrFacts.contains_app, H2.
  - intros it1 it2. unfold work_items. simpl. by intros [= <- <-].
Qed.

Lemma destinations_do_not_collide_witness :
  snd (fst ("input/a.pdf", "output/a.mp3", "en"))
  <> snd (fst ("input/a.b.pdf", "output/a.b.mp3", "en")).
Proof.
  destruct (destinations_do_not_collide "input" "output" "en" "a" "a.b"
              eq_refl eq_refl eq_refl eq_refl ltac:(discriminate))
    as [H _].
  exact (H _ _ eq_refl).
Defined.

(** ** More on the two modes *)

Module ModeMore.
Import PyStr PosixPath StrFacts PathFacts Store StoreFacts CleanupFacts
       ConverterFacts.

Lemma makedirs_isdir E d w w1 :
  OS.makedirs E d w = (Ok tt, w1) ->
  forall p, isdir p (fs w) = true -> isdir p (fs w1) = true.
Proof.
  destruct (MakedirsFacts.makedirs_spec E d w) as (r & s' & -> & _ & Hm & _).
  intros [= _ <-] p. unfold isdir. simpl.
  by destruct (Hm p) as [->|[-> ->]].
Qed.

Lemma isdir_lookup p s : isdir p s = true <-> lookup p s = Some Dir.
Proof. unfold isdir. by destruct (lookup p s) as [[c|]|]. Qed.

End ModeMore.

(** X18.  The two checks of single-file mode are made in order and each
    failure logs one error of its own: a path that is not an existing
    regular file is reported as not existing, whatever its suffix; an
    existing file with another suffix is reported as not being a PDF
    file.  Nothing else happens before the exit with status 1. *)
Theorem single_file_check_messages
    (E : env) (args : arguments) (f : string) (w : world) :
  list_languages_flag args = false ->
  file args = Some f ->
  truthy f = true ->
  (Store.isfile f (fs w) = false ->
   run E args w
   = (1, World (fs w) (tmp w)
               (log w ++ [(ERROR, "Error: Input file '" +:+ f
                                  +:+ "' does not exist.")])
               (stdout w) (calls w)))
  /\ (Store.isfile f (fs w) = true ->
      endswith (lower f) ".pdf" = false ->
      run E args w
      = (1, World (fs w) (tmp w)
                  (log w ++ [(ERROR, "Error: Input file '" +:+ f
                                     +:+ "' is not a PDF file.")])
                  (stdout w) (calls w))).
Proof.
  intros Hl Hf Ht. unfold run.
  rewrite (DriverFacts.main_single E args f w Hl Hf Ht),
    DriverFacts.single_file_unfold.
  split.
  - by intros ->.
  - by intros -> ->.
Qed.

Lemma single_file_check_messages_witness :
  run Demo.E (Args None (Some "output/sub") None "en" false false 4) Demo.w
  = (1, World (fs Demo.w) ∅
              [(ERROR, "Error: Input file 'output/sub' does not exist.")]
              [] [])
  /\ run Demo.E (Args None (Some "output/old.mp3") None "en" false false 4)
         Demo.w
     = (1, World (fs Demo.w) ∅
                 [(ERROR, "Error: Input file 'output/old.mp3' is not a PDF file.")]
                 [] []).
Proof.
  split.
  - destruct (single_file_check_messages Demo.E
                (Args None (Some "output/sub") None "en" false false 4)
                "output/sub" Demo.w eq_refl eq_refl eq_refl) as [H _].
    exact (H eq_refl).
  - destruct (single_file_check_messages Demo.E
                (Args None (Some "output/old.mp3") None "en" false false 4)
                "output/old.mp3" Demo.w eq_refl eq_refl eq_refl) as [_ H].
    exact (H eq_refl eq_refl).
Defined.

(** X19.  Folder mode makes both folders before anything else: whenever
    the run gets as far as the listing of the input folder, both the
    input and the output folder are directories of the store, also when
    the run then ends with status 1 for lack of documents; and no
    document has been converted yet. *)
Theorem batch_makes_both_folders
    (E : env) (args : arguments) (w : world) (names : list string)
    (w1 : world) :
  batch_listing E args w = (Ok names, w1) ->
  Store.isdir (or_default (input args) "input") (fs w1) = true
  /\ Store.isdir (or_default (output args) "output") (fs w1) = true
  /\ calls w1 = calls w.
Proof.
  unfold batch_listing, bind.
  destruct (OS.makedirs E _ w) as [[[]|e] wa] eqn:Hma; [|done].
  destruct (OS.makedirs E _ wa) as [[[]|e] wb] eqn:Hmb; [|done].
  destruct (SharedFolder.makedirs_ok _ _ _ _ Hma) as [_ Hda].
  destruct (SharedFolder.makedirs_ok _ _ _ _ Hmb) as [_ Hdb].
  apply ModeMore.isdir_lookup in Hda, Hdb.
  apply (ModeMore.makedirs_isdir _ _ _ _ Hmb) in Hda.
  destruct (DriverFacts.makedirs_frame _ _ _ _ Hma) as [Hca _].
  destruct (DriverFacts.makedirs_frame _ _ _ _ Hmb) as [Hcb _].
  assert (Hclean : exists wc,
            when (clean args)
              (cleanup_output_folder E (or_default (output args) "output")) wb
            = (Ok tt, wc)
            /\ (forall p, Store.isdir p (fs wb) = true ->
                          Store.isdir p (fs wc) = true)
            /\ calls wc = calls wb).
  { unfold when. destruct (clean args).
    - destruct (CleanupMore.cleanup_output_folder_world E
                  (or_default (output args) "output") wb)
        as (s' & L & Hrun & _).
      destruct (CleanupMore.cleanup_output_folder_effect E
                  (or_default (output args) "output") wb)
        as (wc & Hrun' & Hframe & _).
      exists wc. split; [done|]. split.
      + intros p Hp. unfold Store.isdir, Store.isfile in *.
        destruct (Hframe p) as [->|(_ & Hf & _)]; [done|].
        by destruct (Store.lookup p (fs wb)) as [[?|]|].
      + rewrite Hrun in Hrun'. by injection Hrun' as <-.
    - exists wb. by split. }
  destruct Hclean as (wc & -> & Hdirs & Hcc).
  destruct (CleanupFacts.listdir_cases E (or_default (input args) "input") wc)
    as [[_ ->]|[msg ->]]; [|done].
  intros [= <- <-]. split_and!.
  - by apply Hdirs.
  - by apply Hdirs.
  - congruence.
Qed.

Lemma batch_makes_both_folders_witness :
  exists names w1,
    batch_listing Demo.E
      (Args (Some "in2") None (Some "out2") "en" false false 4) Demo.w
    = (Ok names, w1)
    /\ Store.isdir "in2" (fs w1) = true
    /\ Store.isdir "out2" (fs w1) = true.
Proof.
  eassert (Hlist : batch_listing Demo.E
                     (Args (Some "in2") None (Some "out2") "en" false
                           false 4) Demo.w = (Ok _, _))
    by (vm_compute; reflexivity).
  eexists _, _. split; [exact Hlist|].
  destruct (batch_makes_both_folders Demo.E
              (Args (Some "in2") None (Some "out2") "en" false false 4)
              Demo.w _ _ Hlist) as (Hi & Ho & _).
  split; [exact Hi|exact Ho].
Defined.

(** X20.  Converting again changes nothing more: when the destination is
    not the input, a second call of [pdf_to_audio] with the same
    arguments, the collaborators behaving as in the first, returns the
    same boolean and leaves every path as the first call left it. *)
Theorem pdf_to_audio_again
    (sv : service) (input_file output_file lang : string)
    (w w1 w2 : world) (b1 b2 : bool) :
  input_file <> output_file ->
  pdf_to_audio sv input_file output_file lang w = (Ok b1, w1) ->
  pdf_to_audio sv input_file output_file lang w1 = (Ok b2, w2) ->
  b2 = b1
  /\ forall p, Store.lookup p (fs w2) = Store.lookup p (fs w1).
Proof.
  intros Hne Hrun1 Hrun2.
  destruct (ConverterFacts.pdf_to_audio_spec sv input_file output_file lang
              (Store.lookup input_file (fs w))
              (Store.isdir output_file (fs w)))
    as (b & e & Hout & Hspec).
  destruct (Hspec w eq_refl eq_refl) as (w1' & Hr1 & Hfs1 & _).
  rewrite Hrun1 in Hr1. injection Hr1 as <- <-.
  assert (He : e = Keep
               \/ exists c, e = Put (File c)
                            /\ Store.isdir output_file (fs w) = false).
  { destruct Hout as [(_ & -> & _)|(pages & _ & _ & Hcase)]; [by left|].
    destruct (Store.isdir output_file (fs w)); [left; by destruct Hcase|].
    destruct (export_outcome sv output_file); destruct Hcase as [_ ->];
      [right; by eexists|by left|right; by eexists]. }
  destruct (Hspec w1) as (w2' & Hr2 & Hfs2 & _).
  - rewrite Hfs1. destruct He as [->|(c & -> & _)]; [done|].
    simpl. by apply StoreFacts.lookup_write_ne.
  - rewrite Hfs1. destruct He as [->|(c & -> & Hd)]; [done|].
    simpl. rewrite Hd. unfold Store.isdir.
    by rewrite StoreFacts.lookup_write_eq.
  - rewrite Hrun2 in Hr2. injection Hr2 as <- <-. split; [done|].
    intros p. rewrite Hfs2, Hfs1.
    destruct He as [->|(c & -> & _)]; [done|]. simpl.
    rewrite !StoreFacts.lookup_write. by destruct (decide (output_file = p)).
Qed.

Lemma pdf_to_audio_again_witness :
  exists w1 w2,
    pdf_to_audio Demo.sv "input/a.pdf" "output/a.mp3" "en" Demo.w
    = (Ok true, w1)
    /\ pdf_to_audio Demo.sv "input/a.pdf" "output/a.mp3" "en" w1
       = (Ok true, w2)
    /\ Store.lookup "output/a.mp3" (fs w2) = Store.lookup "output/a.mp3" (fs w1).
Proof.
  eassert (H1 : pdf_to_audio Demo.sv "input/a.pdf" "output/a.mp3" "en" Demo.w
                = (Ok true, _)) by (vm_compute; reflexivity).
  match type of H1 with
  | _ = (_, ?w1) =>
      eassert (H2 : pdf_to_audio Demo.sv "input/a.pdf" "output/a.mp3" "en" w1
                    = (Ok true, _)) by (vm_compute; reflexivity)
  end.
  eexists _, _. split; [exact H1|]. split; [exact H2|].
  refine (proj2 (pdf_to_audio_again Demo.sv "input/a.pdf" "output/a.mp3" "en"
                   Demo.w _ _ true true _ H1 H2) _).
  discriminate.
Defined.

(** ** The destination in both modes *)

Module DestinationFacts.
Import PyStr PosixPath StrFacts PathFacts Store StoreFacts CleanupFacts
       PoolFacts MainFacts.

(** The names of a listing of [batch] are those of the input folder, and
    no conversion is made before the listing. *)
Lemma batch_listing_spec E args w names w1 :
  batch_listing E args w = (Ok names, w1) ->
  names = entries (or_default (input args) "input") (fs w1)
  /\ calls w1 = calls w.
Proof.
  unfold batch_listing, bind.
  destruct (OS.makedirs E _ w) as [[[]|e] wa] eqn:Hma; [|done].
  destruct (OS.makedirs E _ wa) as [[[]|e] wb] eqn:Hmb; [|done].
  destruct (DriverFacts.makedirs_frame _ _ _ _ Hma) as [Hca _].
  destruct (DriverFacts.makedirs_frame _ _ _ _ Hmb) as [Hcb _].
  assert (Hclean : exists wc,
            when (clean args)
              (cleanup_output_folder E (or_default (output args) "output")) wb
            = (Ok tt, wc)
            /\ calls wc = calls wb).
  { unfold when. destruct (clean args).
    - destruct (CleanupMore.cleanup_output_folder_world E
                  (or_default (output args) "output") wb)
        as (s' & L & Hrun & _).
      eexists. split; [exact Hrun|done].
    - exists wb. by split. }
  destruct Hclean as (wc & -> & Hcc).
  destruct (listdir_cases E (or_default (input args) "input") wc)
    as [[_ ->]|[msg ->]]; [|done].
  intros [= <- <-]. split; [done|congruence].
Qed.

(** With a worker, the calls of the folder conversion are the work
    items, each once. *)
Lemma convert_all_calls E args inF outF pdf_files w :
  1 <= jobs args ->
  exists w' done,
    convert_all E args inF outF pdf_files w = (Ok tt, w')
    /\ calls w' = (calls w ++ done)%list
    /\ done ≡ₚ work_items inF outF (language args) pdf_files.
Proof.
  intros Hjobs. unfold convert_all, bind, logger, pool_imap.
  replace (jobs args <? 1) with false by (symmetry; apply Z.ltb_ge; lia).
  unfold bind.
  match goal with
  | |- context [pool_run E ?items ?order ?done ?w1] =>
      destruct (BatchMore.pool_run_calls E items order done w1)
        as (done' & w' & -> & Hcalls)
  end.
  unfold ret. eexists _, _. split; [done|]. split; [exact Hcalls|].
  unfold completion_order. rewrite merge_sort_Permutation.
  pose proof (BatchMore.omap_lookup_seq
                (work_items inF outF (language args) pdf_files) []) as H.
  simpl in H. rewrite <- H at 2. unfold work_items. by rewrite length_map.
Qed.

(** The stem of a listed name is the stem of its path in the folder. *)
Lemma work_items_destination inF outF lang s :
  work_items inF outF lang (select_pdf_files (entries inF s))
  = map (fun filename =>
           (join inF filename, destination outF (join inF filename), lang))
        (select_pdf_files (entries inF s)).
Proof.
  unfold work_items. apply map_ext_in. intros n Hin.
  unfold destination, stem. rewrite basename_join; [done|].
  apply (entries_relative inF s). apply list_elem_of_In in Hin.
  by apply select_pdf_files_spec in Hin as [? _].
Qed.

End DestinationFacts.

(** C8.  The destination of a document is the output folder joined with
    the stem of the base name of the document followed by [.mp3], in
    both modes, and it is the destination the converter is called with.
    In single-file mode, the checks passed and the output folder there
    or made, [main] calls [pdf_to_audio] once, on the given path and its
    destination.  In folder mode, with a worker and a selected file,
    [main] calls [pdf_to_audio] once per selected file of the listing,
    on the path of the file in the input folder and the destination of
    that path: the calls are these, in the order in which the workers
    finish. *)
Theorem destination_is_stem_dot_mp3
    (E : env) (args : arguments) (w : world) :
  list_languages_flag args = false ->
  (forall f,
     file args = Some f ->
     truthy f = true ->
     Store.isfile f (fs w) = true ->
     endswith (lower f) ".pdf" = true ->
     forall w1,
       OS.makedirs E (or_default (output args) "output") w = (Ok tt, w1) ->
       exists w',
         main E args w = (Raise (SystemExit 0), w')
         /\ calls w'
            = (calls w
               ++ [(f, destination (or_default (output args) "output") f,
                    language args)])%list)
  /\ (given (file args) = false ->
      1 <= jobs args ->
      forall names w1,
        batch_listing E args w = (Ok names, w1) ->
        select_pdf_files names <> [] ->
        exists w' done,
          main E args w = (Ok tt, w')
          /\ calls w' = (calls w ++ done)%list
          /\ done
             ≡ₚ map (fun filename =>
                       let input_file :=
                         join (or_default (input args) "input") filename in
                       (input_file,
                        destination (or_default (output args) "output")
                          input_file,
                        language args))
                    (select_pdf_files names)).
Proof.
  intros Hl. split.
  - intros f Hf Ht Hfile Hpdf w1 Hmk. unfold destination.
    rewrite (DriverFacts.main_single E args f w Hl Hf Ht),
      DriverFacts.single_file_unfold, Hfile, Hpdf.
    cbv zeta. simpl negb. cbv iota. rewrite Hmk.
    destruct (ConverterFacts.pdf_to_audio_spec (svc E 0) f
                (join (or_default (output args) "output") (stem f +:+ ".mp3"))
                (language args) (Store.lookup f (fs w1))
                (Store.isdir
                   (join (or_default (output args) "output")
                      (stem f +:+ ".mp3")) (fs w1)))
      as (b & e & _ & Hspec).
    destruct (Hspec w1 eq_refl eq_refl) as (w2 & Hrun & _ & _ & _ & Hcalls).
    rewrite Hrun. eexists. split; [done|].
    destruct (DriverFacts.makedirs_frame _ _ _ _ Hmk) as [<- _].
    rewrite <- Hcalls. by destruct b.
  - intros Hg Hjobs names w1 Hlist Hne.
    rewrite (DriverFacts.main_batch E args w Hl Hg),
      DriverFacts.batch_unfold, Hlist.
    destruct (DestinationFacts.batch_listing_spec _ _ _ _ _ Hlist)
      as [Hnames Hcalls1].
    destruct (select_pdf_files names) as [|n rest] eqn:Hsel; [done|].
    simpl nonempty. cbv iota. rewrite <- Hsel.
    destruct (DestinationFacts.convert_all_calls E args
                (or_default (input args) "input")
                (or_default (output args) "output")
                (select_pdf_files names) w1 Hjobs)
      as (w' & done & Hrun & Hcalls & Hperm).
    exists w', done. split; [done|]. split; [congruence|].
    rewrite Hperm, Hnames.
    by rewrite DestinationFacts.work_items_destination.
Qed.

Lemma destination_is_stem_dot_mp3_witness :
  (exists w',
     main Demo.E Demo.args_single Demo.w = (Raise (SystemExit 0), w')
     /\ calls w' = [("input/c.PDF", "output/c.mp3", "en")])
  /\ (exists w' done,
        main Demo.E Demo.args_batch Demo.w = (Ok tt, w')
        /\ calls w' = done
        /\ done ≡ₚ [("input/a.pdf", "output/a.mp3", "en");
                    ("input/b.pdf", "output/b.mp3", "en")]).
Proof.
  split.
  - destruct (destination_is_stem_dot_mp3 Demo.E Demo.args_single Demo.w
                eq_refl) as [H _].
    destruct (H "input/c.PDF" eq_refl eq_refl eq_refl eq_refl Demo.w eq_refl)
      as (w' & Hrun & Hcalls).
    exists w'. split; [exact Hrun|exact Hcalls].
  - eassert (Hlist : batch_listing Demo.E Demo.args_batch Demo.w = (Ok _, _))
      by (vm_compute; reflexivity).
    destruct (destination_is_stem_dot_mp3 Demo.E Demo.args_batch Demo.w
                eq_refl) as [_ H].
    assert (Hjobs : 1 <= jobs Demo.args_batch) by (simpl; lia).
    destruct (H eq_refl Hjobs _ _ Hlist) as (w' & done & Hrun & Hcalls & Hperm).
    + vm_compute. discriminate.
    + exists w', done. split; [exact Hrun|]. split; [exact Hcalls|exact Hperm].
Defined.
